(** * missolicitudes: the start-up sequence of webapp/main.js

    A shallow embedding of [webapp/main.js]: the browser-language mapping
    ([getBrowserLanguage]), the forced re-authentication
    ([forceLogoutAndReload]), the response reader ([parseJsonResponse]), the
    retrying user request ([fetchCurrentUser]), the SuccessFactors locale query
    ([fetchUserLanguageFromSFSF]) and the sequencer ([main] with its top-level
    [catch]).

    Conventions of the embedding.
    - A JavaScript string is a [string]: a sequence of code units below 256
      (the Latin-1 part of UTF-16).
    - Asynchronous code is a state transformer over a [World] that returns how
      the promise settles: [Resolved], [Rejected], or [Pending] for a promise
      that never settles ([await new Promise(() => {})]).
    - What the script does to its surroundings is logged in [events], in call
      order; the session storage, the configured language and the content of
      the page container are state.
    - [console.log], [console.warn] and [console.error] have no effect on any
      of this and are left out. *)

From Stdlib Require Import ZArith Ascii DecimalString.
From stdpp Require Import gmap strings list.

Local Open Scope Z_scope.

(** ** Strings *)

Module JSString.

Definition code (c : ascii) : N := N_of_ascii c.

(** [String.prototype.toLowerCase] on code units below 256: A-Z and the
    Latin-1 capitals (all of 192..222 but the multiplication sign 215). *)
Definition lower_char (c : ascii) : ascii :=
  let n := code c in
  if ((65 <=? n) && (n <=? 90) || (192 <=? n) && (n <=? 222) && negb (n =? 215))%N
  then ascii_of_N (n + 32) else c.

Fixpoint toLowerCase (s : string) : string :=
  match s with
  | EmptyString => EmptyString
  | String c r => String (lower_char c) (toLowerCase r)
  end.

(** White space and line terminators of ECMAScript below 256. *)
Definition is_space (c : ascii) : bool :=
  let n := code c in
  ((9 <=? n) && (n <=? 13) || (n =? 32) || (n =? 160))%N.

Fixpoint trimStart (s : string) : string :=
  match s with
  | EmptyString => EmptyString
  | String c r => if is_space c then trimStart r else s
  end.

Fixpoint rev_onto (s acc : string) : string :=
  match s with
  | EmptyString => acc
  | String c r => rev_onto r (String c acc)
  end.

Definition rev (s : string) : string := rev_onto s EmptyString.

Definition trim (s : string) : string := rev (trimStart (rev (trimStart s))).

Fixpoint startsWith (p s : string) : bool :=
  match p, s with
  | EmptyString, _ => true
  | String a p', String b s' => if Ascii.eqb a b then startsWith p' s' else false
  | String _ _, EmptyString => false
  end.

(** [s.includes(p)]: [p] occurs somewhere in [s]. *)
Fixpoint includes (p s : string) : bool :=
  startsWith p s ||
  match s with
  | EmptyString => false
  | String _ r => includes p r
  end.

Definition isEmpty (s : string) : bool :=
  match s with EmptyString => true | String _ _ => false end.

(** Decimal rendering of an integer, as in a template literal. *)
Definition ofZ (z : Z) : string := NilZero.string_of_int (Z.to_int z).

(** [s.replace(/-/g, "_")]: every hyphen written as an underscore. *)
Definition underscore_char (c : ascii) : ascii :=
  if (code c =? 45)%N then ascii_of_N 95 else c.

Fixpoint underscored (s : string) : string :=
  match s with
  | EmptyString => EmptyString
  | String c r => String (underscore_char c) (underscored r)
  end.

End JSString.

(** ** Values *)

(** The values [JSON.parse] returns, and [undefined] for a property that is not
    there. A number is the exact decimal [m * 10^e]. *)
#[warnings="-register-all"] Inductive JSValue : Type :=
| JUndefined
| JNull
| JBool (b : bool)
| JNumber (m e : Z)
| JString (s : string)
| JArray (elems : list JSValue)
| JObject (props : list (string * JSValue)).

(** ToBoolean: what [!v] and [v || w] look at. *)
Definition truthy (v : JSValue) : bool :=
  match v with
  | JUndefined | JNull => false
  | JBool b => b
  | JNumber m _ => negb (m =? 0)
  | JString s => negb (JSString.isEmpty s)
  | JArray _ | JObject _ => true
  end.

Fixpoint assoc (k : string) (props : list (string * JSValue)) : option JSValue :=
  match props with
  | [] => None
  | (k', v) :: rest => if String.eqb k k' then Some v else assoc k rest
  end.

(** [v.k] for an own property [k]; any value but an object has none. (The only
    key read this way is [name], which no parsed value inherits.) *)
Definition getProperty (v : JSValue) (k : string) : JSValue :=
  match v with
  | JObject props => default JUndefined (assoc k props)
  | _ => JUndefined
  end.

(** Assignment of a property: a key already there keeps its place. *)
Fixpoint setProperty (k : string) (v : JSValue) (props : list (string * JSValue))
  : list (string * JSValue) :=
  match props with
  | [] => [(k, v)]
  | (k', v') :: rest =>
      if String.eqb k k' then (k', v) :: rest else (k', v') :: setProperty k v rest
  end.

(** ** A reader and a printer for JSON texts

    [JSON.parse] and [JSON.stringify] belong to the language, not to the
    script; the development below takes them as parameters. This module gives
    one instance to run the script on concrete texts: a recursive-descent
    reader for the JSON grammar and a plain decimal printer. *)
Module JSON.

Import JSString.

Definition is_ws (c : ascii) : bool :=
  let n := code c in ((n =? 32) || (n =? 9) || (n =? 10) || (n =? 13))%N.

Fixpoint skip_ws (s : string) : string :=
  match s with
  | EmptyString => EmptyString
  | String c r => if is_ws c then skip_ws r else s
  end.

Definition digit (c : ascii) : option Z :=
  let n := code c in
  if ((48 <=? n) && (n <=? 57))%N then Some (Z.of_N n - 48) else None.

Definition hexdigit (c : ascii) : option Z :=
  let n := code c in
  if ((48 <=? n) && (n <=? 57))%N then Some (Z.of_N n - 48)
  else if ((65 <=? n) && (n <=? 70))%N then Some (Z.of_N n - 55)
  else if ((97 <=? n) && (n <=? 102))%N then Some (Z.of_N n - 87)
  else None.

(** The longest run of digits at the head of [s]. *)
Fixpoint digits (s : string) : list Z * string :=
  match s with
  | EmptyString => ([], EmptyString)
  | String c r =>
      match digit c with
      | Some d => let '(ds, r') := digits r in (d :: ds, r')
      | None => ([], s)
      end
  end.

Definition number_of (ds : list Z) : Z := fold_left (fun a d => 10 * a + d) ds 0.

(** int: [0] or a digit run without a leading zero. *)
Definition parse_int (s : string) : option (list Z * string) :=
  match digits s with
  | ([], _) => None
  | (0 :: _ :: _, _) => None
  | (ds, r) => Some (ds, r)
  end.

Definition parse_frac (s : string) : option (list Z * string) :=
  match s with
  | String c r =>
      if (code c =? 46)%N then
        match digits r with
        | ([], _) => None
        | (ds, r') => Some (ds, r')
        end
      else Some ([], s)
  | EmptyString => Some ([], s)
  end.

Definition parse_exp (s : string) : option (Z * string) :=
  match s with
  | String c r =>
      if ((code c =? 101) || (code c =? 69))%N then
        let '(neg, r1) :=
          match r with
          | String sg r' =>
              if (code sg =? 45)%N then (true, r')
              else if (code sg =? 43)%N then (false, r')
              else (false, r)
          | EmptyString => (false, r)
          end in
        match digits r1 with
        | ([], _) => None
        | (ds, r2) => Some (if neg then - number_of ds else number_of ds, r2)
        end
      else Some (0, s)
  | EmptyString => Some (0, s)
  end.

Definition parse_number (s : string) : option (JSValue * string) :=
  let '(neg, s1) :=
    match s with
    | String c r => if (code c =? 45)%N then (true, r) else (false, s)
    | EmptyString => (false, s)
    end in
  '(ip, s2) ← parse_int s1;
  '(fp, s3) ← parse_frac s2;
  '(ex, s4) ← parse_exp s3;
  let m := number_of (ip ++ fp) in
  Some (JNumber (if neg then - m else m) (ex - Z.of_nat (length fp)), s4).

Definition unescape (c : ascii) : option ascii :=
  match code c with
  | 34%N | 92%N | 47%N => Some c
  | 98%N => Some (ascii_of_N 8)
  | 102%N => Some (ascii_of_N 12)
  | 110%N => Some (ascii_of_N 10)
  | 114%N => Some (ascii_of_N 13)
  | 116%N => Some (ascii_of_N 9)
  | _ => None
  end.

(** The characters of a string literal after its opening quote, up to the
    closing one. An escape [\uXXXX] is read when it denotes a code unit of
    the modelled range. *)
Fixpoint parse_chars (s : string) : option (string * string) :=
  match s with
  | EmptyString => None
  | String c r =>
      if (code c =? 34)%N then Some (EmptyString, r)
      else if (code c =? 92)%N then
        match r with
        | String e r' =>
            if (code e =? 117)%N then
              match r' with
              | String h1 (String h2 (String h3 (String h4 r''))) =>
                  a ← hexdigit h1; b ← hexdigit h2;
                  c' ← hexdigit h3; d ← hexdigit h4;
                  let u := ((a * 16 + b) * 16 + c') * 16 + d in
                  if u <? 256 then
                    '(str, rest) ← parse_chars r'';
                    Some (String (ascii_of_N (Z.to_N u)) str, rest)
                  else None
              | _ => None
              end
            else
              x ← unescape e;
              '(str, rest) ← parse_chars r';
              Some (String x str, rest)
        | EmptyString => None
        end
      else if (code c <? 32)%N then None
      else
        '(str, rest) ← parse_chars r;
        Some (String c str, rest)
  end.

Definition literal (w : string) (v : JSValue) (s : string) : option (JSValue * string) :=
  if startsWith w s then Some (v, String.substring (String.length w) (String.length s) s)
  else None.

Fixpoint parse_value (fuel : nat) (s : string) : option (JSValue * string) :=
  match fuel with
  | O => None
  | S fuel' =>
      match skip_ws s with
      | EmptyString => None
      | String c r as s' =>
          match code c with
          | 123%N =>
              match skip_ws r with
              | String c' r' =>
                  if (code c' =? 125)%N then Some (JObject [], r')
                  else parse_members fuel' r []
              | EmptyString => None
              end
          | 91%N =>
              match skip_ws r with
              | String c' r' =>
                  if (code c' =? 93)%N then Some (JArray [], r')
                  else parse_elements fuel' r []
              | EmptyString => None
              end
          | 34%N => '(str, rest) ← parse_chars r; Some (JString str, rest)
          | 116%N => literal "true" (JBool true) s'
          | 102%N => literal "false" (JBool false) s'
          | 110%N => literal "null" JNull s'
          | _ => parse_number s'
          end
      end
  end
with parse_elements (fuel : nat) (s : string) (acc : list JSValue)
  : option (JSValue * string) :=
  match fuel with
  | O => None
  | S fuel' =>
      match parse_value fuel' s with
      | Some (v, r) =>
          match skip_ws r with
          | String c r' =>
              if (code c =? 44)%N then parse_elements fuel' r' (acc ++ [v])
              else if (code c =? 93)%N then Some (JArray (acc ++ [v]), r')
              else None
          | EmptyString => None
          end
      | None => None
      end
  end
with parse_members (fuel : nat) (s : string) (acc : list (string * JSValue))
  : option (JSValue * string) :=
  match fuel with
  | O => None
  | S fuel' =>
      match skip_ws s with
      | String q r =>
          if (code q =? 34)%N then
            match parse_chars r with
            | Some (k, r1) =>
                match skip_ws r1 with
                | String colon r2 =>
                    if (code colon =? 58)%N then
                      match parse_value fuel' r2 with
                      | Some (v, r3) =>
                          match skip_ws r3 with
                          | String c r4 =>
                              if (code c =? 44)%N
                              then parse_members fuel' r4 (setProperty k v acc)
                              else if (code c =? 125)%N
                              then Some (JObject (setProperty k v acc), r4)
                              else None
                          | EmptyString => None
                          end
                      | None => None
                      end
                    else None
                | EmptyString => None
                end
            | None => None
            end
          else None
      | EmptyString => None
      end
  end.

(** [JSON.parse]: [None] stands for the SyntaxError it throws. *)
Definition parse (s : string) : option JSValue :=
  match parse_value (2 * String.length s + 2) s with
  | Some (v, r) => if isEmpty (skip_ws r) then Some v else None
  | None => None
  end.

Definition hexchar (d : Z) : ascii :=
  ascii_of_N (Z.to_N (if d <? 10 then 48 + d else 87 + d)).

Definition escape_char (c : ascii) : string :=
  let n := code c in
  let bs := ascii_of_N 92 in
  if (n =? 34)%N || (n =? 92)%N then String bs (String c EmptyString)
  else if (n =? 8)%N then String bs "b"
  else if (n =? 12)%N then String bs "f"
  else if (n =? 10)%N then String bs "n"
  else if (n =? 13)%N then String bs "r"
  else if (n =? 9)%N then String bs "t"
  else if (n <? 32)%N then
    String bs ("u00" +:+ String (hexchar (Z.of_N n / 16))
                       (String (hexchar (Z.of_N n mod 16)) EmptyString))
  else String c EmptyString.

Fixpoint escape (s : string) : string :=
  match s with
  | EmptyString => EmptyString
  | String c r => escape_char c +:+ escape r
  end.

Definition quote (s : string) : string :=
  String (ascii_of_N 34) (escape s +:+ String (ascii_of_N 34) EmptyString).

Fixpoint zeros (n : nat) : string :=
  match n with O => EmptyString | S n' => String "0" (zeros n') end.

Fixpoint strip_zeros_rev (s : string) : string :=
  match s with
  | String c r => if (code c =? 48)%N then strip_zeros_rev r else s
  | EmptyString => EmptyString
  end.

(** Plain decimal notation, which is what [JSON.stringify] prints for
    magnitudes from 1e-6 up to 1e21. *)
Definition number_text (m e : Z) : string :=
  if m =? 0 then "0" else
  let sign := if m <? 0 then "-" else "" in
  let ds := ofZ (Z.abs m) in
  if 0 <=? e then sign +:+ ds +:+ zeros (Z.to_nat e)
  else
    let k := Z.to_nat (- e) in
    let padded := zeros (S k - String.length ds) +:+ ds in
    let n := String.length padded in
    let ip := String.substring 0 (n - k) padded in
    let fp := rev (strip_zeros_rev (rev (String.substring (n - k) k padded))) in
    if isEmpty fp then sign +:+ ip else sign +:+ ip +:+ "." +:+ fp.

Fixpoint join (sep : string) (l : list string) : string :=
  match l with
  | [] => EmptyString
  | [x] => x
  | x :: rest => x +:+ sep +:+ join sep rest
  end.

(** [JSON.stringify] on parsed values ([undefined] prints as in an array). *)
Fixpoint stringify (v : JSValue) : string :=
  match v with
  | JUndefined | JNull => "null"
  | JBool true => "true"
  | JBool false => "false"
  | JNumber m e => number_text m e
  | JString s => quote s
  | JArray l => "[" +:+ join "," (map stringify l) +:+ "]"
  | JObject ps =>
      "{" +:+ join "," (map (fun kv => quote (fst kv) +:+ ":" +:+ stringify (snd kv)) ps)
          +:+ "}"
  end.

(** Writes a JSON text with apostrophes for its double quotes. *)
Fixpoint text (s : string) : string :=
  match s with
  | EmptyString => EmptyString
  | String c r => String (if (code c =? 39)%N then ascii_of_N 34 else c) (text r)
  end.

End JSON.

(** ** Promises, events and the page *)

(** A thrown [Error]: the script reads nothing but its [message]. *)
Record Error : Type := mkError { message : string }.

(** What [fetch] gives back for one request. *)
Inductive Body : Type :=
| BodyText (sResponseText : string)     (* [response.text()] resolves *)
| BodyError (e : Error).                (* [response.text()] rejects *)

Record Response : Type := mkResponse {
  status : Z;
  statusText : string;
  contentType : option string;          (* [headers.get("content-type")] *)
  body : Body
}.

(** [response.ok]: the status is in the range 200..299 (Fetch standard). *)
Definition ok (r : Response) : bool := (200 <=? status r) && (status r <=? 299).

Inductive FetchResult : Type :=
| NetworkError (e : Error)              (* [fetch] rejects *)
| HttpResponse (r : Response).          (* [fetch] resolves *)

(** The SuccessFactors OData service, entity set [/User]. *)
Record UserEntity : Type := mkUser {
  userId : string;
  defaultLocale : option string         (* [None]: null or not selected *)
}.

Record ODataResult : Type := mkOData { results : option (list UserEntity) }.

Inductive ODataOutcome : Type :=
| ODataSuccess (oData : ODataResult)    (* the [success] callback runs *)
| ODataError (oError : Error)           (* the [error] callback runs *)
| ODataThrows (e : Error)               (* [read] throws *)
| ODataUnavailable (e : Error).         (* [new ODataModel] or [new Filter] throws:
                                           [read] is not reached *)

Record Navigator : Type := mkNavigator {
  language : option string;             (* [navigator.language] *)
  userLanguage : option string          (* [navigator.userLanguage] *)
}.

(** A value of the variable [sLanguage] when it is passed to [setLanguage]: a
    locale string, or the member of [Object.prototype] that the lookup in an
    object literal finds under an inherited name (a function or an object,
    so a truthy value that is not a string). *)
Inductive LanguageValue : Type :=
| Locale (sLocale : string)
| Inherited (name : string).

Inductive Event : Type :=
| EFetch (url : string)                         (* GET, credentials included *)
| EXhrSend (method url : string)                (* [xhr.open(method, url, true); xhr.send()] *)
| ESetTimeout (ms : Z)
| ESetItem (key value : string)                 (* [sessionStorage.setItem] *)
| EODataRead (path : string) (sUserId : JSValue) (* [read] filtered on userId *)
| ESetLanguage (sLanguage : LanguageValue)      (* [getConfiguration().setLanguage] *)
| EPlaceAt (component container : string)       (* [new ComponentContainer(..).placeAt] *)
| EReload (forced : bool).                      (* [window.location.reload] *)

Record World : Type := mkWorld {
  events : list Event;
  sessionStorage : gmap string string;
  configuredLanguage : option LanguageValue;
  content : list string                 (* components placed in the page *)
}.

(** The world after the calls [l] that change nothing but the log. *)
Definition logs (l : list Event) (w : World) : World :=
  mkWorld (events w ++ l) (sessionStorage w) (configuredLanguage w) (content w).

Definition log (e : Event) (w : World) : World := logs [e] w.

Arguments logs : simpl never.

Definition is_fetch (e : Event) : bool :=
  match e with EFetch _ => true | _ => false end.

Definition is_logout (e : Event) : bool :=
  match e with EXhrSend _ _ => true | _ => false end.

Definition is_placeAt (e : Event) : bool :=
  match e with EPlaceAt _ _ => true | _ => false end.

Fixpoint count (p : Event -> bool) (l : list Event) : nat :=
  match l with
  | [] => O
  | e :: rest => if p e then S (count p rest) else count p rest
  end.

(** How many requests to the identity endpoint were made so far. *)
Definition nfetch (w : World) : nat := count is_fetch (events w).

(** How a promise settles. *)
Inductive Settled (A : Type) : Type :=
| Resolved (a : A)
| Rejected (e : Error)
| Pending.
Arguments Resolved {A} a.
Arguments Rejected {A} e.
Arguments Pending {A}.

Definition Async (A : Type) : Type := World -> Settled A * World.

Definition ret {A} (a : A) : Async A := fun w => (Resolved a, w).

Definition throw {A} (e : Error) : Async A := fun w => (Rejected e, w).

(** [await new Promise(() => {})] *)
Definition never {A} : Async A := fun w => (Pending, w).

Definition bind {A B} (m : Async A) (k : A -> Async B) : Async B :=
  fun w =>
    match m w with
    | (Resolved a, w') => k a w'
    | (Rejected e, w') => (Rejected e, w')
    | (Pending, w') => (Pending, w')
    end.

(** [try { m } catch (error) { h error }] *)
Definition try_catch {A} (m : Async A) (h : Error -> Async A) : Async A :=
  fun w =>
    match m w with
    | (Rejected e, w') => h e w'
    | r => r
    end.

Definition emit (e : Event) : Async unit := fun w => (Resolved tt, log e w).

(** [if (c) { m }] followed by the rest of the block. *)
Definition when (c : bool) (m : Async unit) : Async unit := if c then m else ret tt.

Declare Scope async_scope.
Delimit Scope async_scope with async.
Notation "x <- m ;; k" := (bind m (fun x => k))
  (at level 100, m at next level, k at level 200, right associativity) : async_scope.
Notation "m ;; k" := (bind m (fun _ => k))
  (at level 100, k at level 200, right associativity) : async_scope.
Local Open Scope async_scope.

(** How one run of the body of [fetchCurrentUser] returns: with a value, or
    with the promise of the next call ([return fetchCurrentUser(attempt + 1,
    ..)], not awaited, so the next call settles outside this [try]). *)
Inductive Completion : Type :=
| Return (oUserData : JSValue)
| ReturnCall (attempt : Z).

(** ** Concrete surroundings

    Answers of the identity endpoint, of the directory service and of the
    framework on which the script is run below. *)
Module Scenario.

Definition toUrl (sPath : string) : string := ".".

Definition alice : JSValue := JObject [("name", JString "alice")].

Definition answer (status : Z) (statusText sResponseText : string) : FetchResult :=
  HttpResponse (mkResponse status statusText (Some "application/json")
                  (BodyText sResponseText)).

Definition user_alice : FetchResult := answer 200 "OK" (JSON.text "{'name':'alice'}").
Definition user_without_name : FetchResult :=
  answer 200 "OK" (JSON.text "{'email':'alice@example.org'}").
Definition empty_answer : FetchResult := answer 200 "OK" "".
Definition truncated_answer : FetchResult := answer 200 "OK" (JSON.text "{'name':").
Definition server_error : FetchResult := answer 500 "Internal Server Error" "oops".
Definition unauthorized : FetchResult := answer 401 "Unauthorized" "".
Definition connection_lost : FetchResult := NetworkError (mkError "Failed to fetch").
Definition null_answer : FetchResult := answer 200 "OK" "null".
Definition zero_answer : FetchResult := answer 200 "OK" "0".
Definition array_answer : FetchResult := answer 200 "OK" "[1,2]".
Definition error_naming_json : FetchResult :=
  NetworkError (mkError "Unexpected end of JSON input").
Definition body_lost : FetchResult :=
  HttpResponse (mkResponse 200 "OK" None (BodyError (mkError "network error"))).
Definition failure_naming_html : FetchResult := answer 500 "HTML error page" "oops".

(** The endpoint answers the requests with [l] in turn, then with [d]. *)
Definition script (l : list FetchResult) (d : FetchResult) (n : nat) : FetchResult :=
  nth n l d.

Definition always (a : FetchResult) (n : nat) : FetchResult := a.

Definition url : string := "./user-api/currentUser".

Definition nameless_then_alice : nat -> FetchResult :=
  script [user_without_name] user_alice.

Definition four_errors_then_alice : nat -> FetchResult :=
  script [server_error; server_error; server_error; server_error] user_alice.

Definition five_failures : nat -> FetchResult :=
  script [server_error; connection_lost; user_without_name; server_error] server_error.

Definition locale_of (sLocale : option string) (sUserId : JSValue) : ODataOutcome :=
  ODataSuccess (mkOData (Some [mkUser "alice" sLocale])).
Definition no_record (sUserId : JSValue) : ODataOutcome :=
  ODataSuccess (mkOData (Some [])).
Definition directory_down (sUserId : JSValue) : ODataOutcome :=
  ODataError (mkError "HTTP request failed").

Definition browser (sTag : string) : Navigator := mkNavigator (Some sTag) None.

Definition directory_unavailable (sUserId : JSValue) : ODataOutcome :=
  ODataUnavailable (mkError "service metadata could not be loaded").

Definition accepts_all (sLanguage : LanguageValue) : option Error := None.
Definition rejects (sBad : string) (sLanguage : LanguageValue) : option Error :=
  match sLanguage with
  | Locale s =>
      if String.eqb s sBad then Some (mkError "sLanguage must be a valid language tag")
      else None
  | Inherited _ => None
  end.

Definition stores (key value : string) : option Error := None.
Definition storage_full (key value : string) : option Error :=
  Some (mkError "QuotaExceededError").

Definition mounts (n : nat) : option Error := None.
Definition mount_fails (n : nat) : option Error :=
  Some (mkError "failed to load component").

End Scenario.

(** ** The script *)

Section Bootstrap.

Import JSString.

(** The surroundings of the script. *)
Variable JSON_parse : string -> option JSValue.   (* [None]: it throws *)
Variable JSON_stringify : JSValue -> string.
Variable toUrl : string -> string.                (* [sap.ui.require.toUrl] *)
Variable navigator : Navigator.
(** The identity endpoint: its answer to the n-th request, counted from 0. *)
Variable identity : nat -> FetchResult.
(** The directory service: its answer to a read filtered on a user id. *)
Variable directory : JSValue -> ODataOutcome.
(** The framework: the error [setLanguage] throws for a language, and the
    error mounting throws at the n-th [placeAt] call; [None] when the call
    returns. *)
Variable setLanguage_throws : LanguageValue -> option Error.
Variable placeAt_throws : nat -> option Error.
(** The session storage: the error [setItem] throws for a key and a value
    (a full or disabled storage), [None] when it takes the write. *)
Variable setItem_throws : string -> string -> option Error.

(** *** getBrowserLanguage *)

Definition mMap_entries : list (string * string) :=
  [ ("es", "es_ES"); ("es-es", "es_ES");
    ("ca", "ca_ES"); ("ca-es", "ca_ES");
    ("en", "en_US"); ("en-us", "en_US");
    ("ca_es", "ca_ES"); ("en_us", "en_US"); ("es_es", "es_ES") ].

(** The nine own properties of the object literal [mMap]. *)
Definition mMap : gmap string string := list_to_map mMap_entries.

(** The names every object literal inherits from [Object.prototype]; each
    holds a function or an object. *)
Definition Object_prototype_names : list string :=
  [ "constructor"; "__defineGetter__"; "__defineSetter__"; "hasOwnProperty";
    "__lookupGetter__"; "__lookupSetter__"; "isPrototypeOf";
    "propertyIsEnumerable"; "toString"; "valueOf"; "__proto__"; "toLocaleString" ].

(** [mMap[sLang]]: the own property of that name, or else the inherited
    member of that name, or else undefined. *)
Definition mMap_get (sLang : string) : option LanguageValue :=
  match mMap !! sLang with
  | Some sLocale => Some (Locale sLocale)
  | None =>
      if bool_decide (sLang ∈ Object_prototype_names) then Some (Inherited sLang)
      else None
  end.

(** [v || "literal"] for the value [v] of such a lookup. *)
Definition language_or (v : option LanguageValue) (d : string) : LanguageValue :=
  match v with
  | Some (Locale s) => if isEmpty s then Locale d else Locale s
  | Some (Inherited name) => Inherited name
  | None => Locale d
  end.

Definition truthy_str (o : option string) : bool :=
  match o with
  | Some s => negb (isEmpty s)
  | None => false
  end.

(** [a || b] on values that are a string or absent. *)
Definition js_or (a b : option string) : option string :=
  if truthy_str a then a else b.

(** [a || "literal"] *)
Definition js_or_lit (a : option string) (d : string) : string :=
  match a with
  | Some s => if isEmpty s then d else s
  | None => d
  end.

(** The tag the browser reports: [navigator.language || navigator.userLanguage]. *)
Definition browser_tag : option string :=
  js_or (language navigator) (userLanguage navigator).

Definition getBrowserLanguage : LanguageValue :=
  let sLang := toLowerCase (js_or_lit browser_tag "en") in
  language_or (mMap_get sLang) "en_US".

(** *** forceLogoutAndReload *)

Definition forceLogoutAndReload : Async unit := emit (EXhrSend "GET" "/logout").

(** The handler it installs on the request. *)
Definition onreadystatechange (readyState : Z) : list Event :=
  if readyState =? 4 then [EReload true] else [].

(** *** parseJsonResponse *)

Definition text (response : Response) : Async string :=
  match body response with
  | BodyText s => ret s
  | BodyError e => throw e
  end.

Definition looksLikeHtml (sResponseText : string) : bool :=
  startsWith "<" (trim sResponseText) || includes "<html>" sResponseText.

Definition parseJsonResponse (response : Response) : Async JSValue :=
  sResponseText <- text response ;;
  if looksLikeHtml sResponseText then ret JNull
  else
    match JSON_parse sResponseText with
    | Some v => ret v
    | None => ret JNull
    end.

(** *** fetchCurrentUser *)

Definition currentUser_url : string :=
  toUrl "com/inetum/missolicitudes" +:+ "/user-api/currentUser".

Definition fetch (url : string) : Async Response :=
  fun w =>
    match identity (nfetch w) with
    | NetworkError e => (Rejected e, log (EFetch url) w)
    | HttpResponse r => (Resolved r, log (EFetch url) w)
    end.

Definition setTimeout (ms : Z) : Async unit := emit (ESetTimeout ms).

Definition server_error_message (r : Response) : string :=
  "Error del servidor: " +:+ ofZ (status r) +:+ " " +:+ statusText r.

(** "Datos de usuario inválidos: falta el campo 'name'" *)
Definition invalid_user_message : string :=
  "Datos de usuario inv" +:+ String (ascii_of_N 225) "lidos: falta el campo 'name'".

(** One run of the body of [fetchCurrentUser]: the [try] block and its
    [catch]. The attempt numbers are integers; on those JavaScript holds
    exactly ([safe_integer] below) its [attempt + 1] and [attempt <
    maxRetries] are the ones written here. *)
Definition fetchCurrentUser_body (attempt maxRetries retryDelay : Z) : Async Completion :=
  try_catch
    (oResponse <- fetch currentUser_url ;;
     if negb (ok oResponse) then
       let errorMsg := server_error_message oResponse in
       when ((status oResponse =? 401) || (status oResponse =? 403))
            (forceLogoutAndReload ;; never) ;;
       if attempt <? maxRetries then
         setTimeout retryDelay ;;
         ret (ReturnCall (attempt + 1))
       else throw (mkError errorMsg)
     else
       oUserData <- parseJsonResponse oResponse ;;
       when (negb (truthy oUserData)) (forceLogoutAndReload ;; never) ;;
       if negb (truthy (getProperty oUserData "name")) then
         throw (mkError invalid_user_message)
       else ret (Return oUserData))
    (fun error =>
       when ((attempt =? 1)
             && (includes "JSON" (message error) || includes "HTML" (message error)))
            (forceLogoutAndReload ;; never) ;;
       if attempt <? maxRetries then
         setTimeout retryDelay ;;
         ret (ReturnCall (attempt + 1))
       else throw error).

(** The chain of calls, with a bound on its length. *)
Fixpoint fetchCurrentUser_fuel (fuel : nat) (attempt maxRetries retryDelay : Z)
    (w : World) : option (Settled JSValue * World) :=
  match fetchCurrentUser_body attempt maxRetries retryDelay w with
  | (Resolved (Return oUserData), w') => Some (Resolved oUserData, w')
  | (Resolved (ReturnCall attempt'), w') =>
      match fuel with
      | O => None
      | S fuel' => fetchCurrentUser_fuel fuel' attempt' maxRetries retryDelay w'
      end
  | (Rejected e, w') => Some (Rejected e, w')
  | (Pending, w') => Some (Pending, w')
  end.

(** [maxRetries - attempt] further calls are enough
    ([fetchCurrentUser_fuel_enough]), so the default is never used. *)
Definition fetchCurrentUser (attempt maxRetries retryDelay : Z) : Async JSValue :=
  fun w =>
    default (Pending, w)
      (fetchCurrentUser_fuel (Z.to_nat (maxRetries - attempt))
         attempt maxRetries retryDelay w).

(** *** fetchUserLanguageFromSFSF *)

(** [new ODataModel(..)] and, in the promise, [new Filter(.., userId)]: they
    return, or one of them throws. *)
Definition new_ODataModel (sUserId : JSValue) : Async unit :=
  match directory sUserId with
  | ODataUnavailable e => throw e
  | _ => ret tt
  end.

(** [oDataModel.read("/User", ..)]: which callback runs, and with what. *)
Definition read (path : string) (sUserId : JSValue) : Async (ODataResult + Error) :=
  fun w =>
    let w' := log (EODataRead path sUserId) w in
    match directory sUserId with
    | ODataSuccess oData => (Resolved (inl oData), w')
    | ODataError oError => (Resolved (inr oError), w')
    | ODataThrows e | ODataUnavailable e => (Rejected e, w')
    end.

Definition fetchUserLanguageFromSFSF (sUserId : JSValue) : Async (option string) :=
  try_catch
    (new_ODataModel sUserId ;;
     callback <- read "/User" sUserId ;;
     match callback with
     | inl oData =>
         match results oData with
         | Some (first :: _) =>
             let sLang := defaultLocale first in
             if truthy_str sLang then ret sLang else ret None
         | _ => ret None
         end
     | inr oError => ret None
     end)
    (fun error => ret None).

(** *** main *)

Definition MAX_RETRIES : Z := 5.
Definition RETRY_DELAY : Z := 1000.

Definition userInfo_key : string := "com:missolicitudes:userInfo".

(** [sessionStorage.setItem(key, value)] *)
Definition setItem (key value : string) : Async unit :=
  fun w =>
    match setItem_throws key value with
    | Some e => (Rejected e, log (ESetItem key value) w)
    | None =>
        (Resolved tt,
         mkWorld (events w ++ [ESetItem key value]) (<[key := value]> (sessionStorage w))
                 (configuredLanguage w) (content w))
    end.

(** [let x = x0; try { x = await m; k x } catch (error) { h error }], and then
    the value of [x]: an error thrown by [k] is caught with [x] already
    assigned. *)
Definition try_assign {A} (x0 : A) (m : Async A) (k : A -> Async unit)
    (h : Error -> Async unit) : Async A :=
  fun w =>
    match m w with
    | (Resolved x, w1) => (try_catch (k x) h ;; ret x) w1
    | (Rejected e, w1) => (h e ;; ret x0) w1
    | (Pending, w1) => (Pending, w1)
    end.

Definition setLanguage (sLanguage : LanguageValue) : Async unit :=
  fun w =>
    match setLanguage_throws sLanguage with
    | Some e => (Rejected e, log (ESetLanguage sLanguage) w)
    | None =>
        (Resolved tt,
         mkWorld (events w ++ [ESetLanguage sLanguage]) (sessionStorage w)
                 (Some sLanguage) (content w))
    end.

(** [new ComponentContainer({name, ..}).placeAt(container)] *)
Definition placeAt (component container : string) : Async unit :=
  fun w =>
    match placeAt_throws (count is_placeAt (events w)) with
    | Some e => (Rejected e, log (EPlaceAt component container) w)
    | None =>
        (Resolved tt,
         mkWorld (events w ++ [EPlaceAt component container]) (sessionStorage w)
                 (configuredLanguage w) (content w ++ [component]))
    end.

Definition mount : Async unit := placeAt "com.inetum.missolicitudes" "content".

Definition main : Async unit :=
  (* Paso 1 *)
  oUserData <-
    try_assign JNull
      (fetchCurrentUser 1 MAX_RETRIES RETRY_DELAY)
      (fun oUserData => setItem userInfo_key (JSON_stringify oUserData))
      (fun error => ret tt) ;;
  (* Paso 2 *)
  sLanguage <-
    (if truthy oUserData && truthy (getProperty oUserData "name") then
       try_catch (fetchUserLanguageFromSFSF (getProperty oUserData "name"))
                 (fun error => ret None)
     else ret None) ;;
  (* Paso 3 *)
  let sLanguage := if truthy_str sLanguage then Locale (default "" sLanguage)
                   else getBrowserLanguage in
  setLanguage sLanguage ;;
  (* Paso 4 *)
  mount.

(** [main().catch(error => ..)]: the whole start-up. *)
Definition main_catch (error : Error) : Async unit :=
  let sLang := getBrowserLanguage in
  setLanguage sLang ;;
  mount.

Definition startup : Async unit := try_catch main main_catch.

(** The page before the script runs. *)
Definition page : World := mkWorld [] ∅ None [].

Definition mounted (w : World) : Prop := content w ≠ [].

(** An error the [catch] of [fetchCurrentUser] takes for an expired session. *)
Definition session_like (e : Error) : bool :=
  includes "JSON" (message e) || includes "HTML" (message e).

(** *** Vocabulary for the statements *)

(** The calls one run of the body of [fetchCurrentUser] can make. *)
Definition fetched : list Event := [EFetch currentUser_url].
Definition fetched_then_logout : list Event :=
  [EFetch currentUser_url; EXhrSend "GET" "/logout"].
Definition fetched_then_waited (retryDelay : Z) : list Event :=
  [EFetch currentUser_url; ESetTimeout retryDelay].

(** What the [catch] block of [fetchCurrentUser] does with an error thrown
    after the request was sent. *)
Definition caught (attempt maxRetries retryDelay : Z) (e : Error) (w : World)
  : Settled Completion * World :=
  if (attempt =? 1) && session_like e then (Pending, logs fetched_then_logout w)
  else if attempt <? maxRetries
       then (Resolved (ReturnCall (attempt + 1)), logs (fetched_then_waited retryDelay) w)
       else (Rejected e, logs fetched w).

(** The four ways one run of the body can end. *)
Inductive body_outcome (attempt maxRetries retryDelay : Z) (w : World)
  : Settled Completion * World -> Prop :=
| body_suspended :
    body_outcome attempt maxRetries retryDelay w (Pending, logs fetched_then_logout w)
| body_retried :
    attempt < maxRetries ->
    body_outcome attempt maxRetries retryDelay w
      (Resolved (ReturnCall (attempt + 1)), logs (fetched_then_waited retryDelay) w)
| body_returned v :
    truthy v = true -> truthy (getProperty v "name") = true ->
    body_outcome attempt maxRetries retryDelay w (Resolved (Return v), logs fetched w)
| body_thrown e :
    maxRetries <= attempt ->
    body_outcome attempt maxRetries retryDelay w (Rejected e, logs fetched w).

(** The runs of a chain of calls that starts at [attempt] in [w]. *)
Inductive retry_chain (maxRetries retryDelay : Z)
  : Z -> World -> Settled JSValue * World -> Prop :=
| chain_suspended attempt w :
    retry_chain maxRetries retryDelay attempt w (Pending, logs fetched_then_logout w)
| chain_returned attempt w v :
    truthy v = true -> truthy (getProperty v "name") = true ->
    retry_chain maxRetries retryDelay attempt w (Resolved v, logs fetched w)
| chain_thrown attempt w e :
    maxRetries <= attempt ->
    retry_chain maxRetries retryDelay attempt w (Rejected e, logs fetched w)
| chain_retried attempt w r :
    attempt < maxRetries ->
    retry_chain maxRetries retryDelay (attempt + 1)
      (logs (fetched_then_waited retryDelay) w) r ->
    retry_chain maxRetries retryDelay attempt w r.

(** How the promise of [fetchCurrentUser] settles once one run of its body
    has settled with a value. *)
Definition settle (c : Settled Completion * World) : option (Settled JSValue * World) :=
  match c with
  | (Resolved (Return oUserData), w') => Some (Resolved oUserData, w')
  | (Resolved (ReturnCall _), _) => None
  | (Rejected e, w') => Some (Rejected e, w')
  | (Pending, w') => Some (Pending, w')
  end.

(** An answer with a failure status other than 401 and 403. *)
Definition generic_http_failure (a : FetchResult) : Prop :=
  exists r, a = HttpResponse r /\ ok r = false /\ status r <> 401 /\ status r <> 403.

(** An answer with a success status whose body is the JSON text of a user
    [u] with a name. *)
Definition valid_user_answer (a : FetchResult) (u : JSValue) : Prop :=
  exists r s,
    a = HttpResponse r /\ ok r = true /\ body r = BodyText s
    /\ looksLikeHtml s = false /\ JSON_parse s = Some u
    /\ truthy u = true /\ truthy (getProperty u "name") = true.

(** [generic_failure attempt a e]: at [attempt] the answer [a] is a failure
    that is neither an authentication failure (401, 403) nor taken for an
    expired session, and [e] is the error the attempt ends with when it is
    the last one. *)
Inductive generic_failure (attempt : Z) : FetchResult -> Error -> Prop :=
| failed_status r :
    ok r = false -> status r <> 401 -> status r <> 403 ->
    generic_failure attempt (HttpResponse r) (mkError (server_error_message r))
| failed_request e :
    (attempt = 1 -> session_like e = false) ->
    generic_failure attempt (NetworkError e) e
| failed_text r e :
    ok r = true -> body r = BodyError e ->
    (attempt = 1 -> session_like e = false) ->
    generic_failure attempt (HttpResponse r) e
| failed_user r s v :
    ok r = true -> body r = BodyText s ->
    looksLikeHtml s = false -> JSON_parse s = Some v ->
    truthy v = true -> truthy (getProperty v "name") = false ->
    generic_failure attempt (HttpResponse r) (mkError invalid_user_message).

(** The calls of [n] attempts that each end in a delay. *)
Definition waits (n : nat) (retryDelay : Z) : list Event :=
  concat (replicate n (fetched_then_waited retryDelay)).

(** Steps 3b and 4 of [main], which are also the body of its [catch]:
    [setLanguage(sLanguage)] and then the mount. *)
Definition apply_locale_and_mount (sLanguage : LanguageValue) : Async unit :=
  setLanguage sLanguage ;; mount.

(** Step 2 of [main] and the choice of step 3, for the value [oUserData]
    that step 1 left. *)
Definition resolve_locale (oUserData : JSValue) : Async LanguageValue :=
  sLanguage <-
    (if truthy oUserData && truthy (getProperty oUserData "name") then
       try_catch (fetchUserLanguageFromSFSF (getProperty oUserData "name"))
                 (fun error => ret None)
     else ret None) ;;
  ret (if truthy_str sLanguage then Locale (default "" sLanguage) else getBrowserLanguage).

(** The world after the call [sessionStorage.setItem(key, value)], whether it
    returns or throws. *)
Definition stored (key value : string) (w : World) : World :=
  snd (setItem key value w).

(** The world after a call of [setLanguage] and a mount that both return. *)
Definition localized_and_mounted (sLanguage : LanguageValue) (w : World) : World :=
  mkWorld (events w ++ [ESetLanguage sLanguage;
                        EPlaceAt "com.inetum.missolicitudes" "content"])
          (sessionStorage w) (Some sLanguage)
          (content w ++ ["com.inetum.missolicitudes"]).

Definition is_setItem (e : Event) : bool :=
  match e with ESetItem _ _ => true | _ => false end.

(** The calls of locale resolution, locale setting and mounting. *)
Definition is_locale_or_mount (e : Event) : bool :=
  match e with
  | EODataRead _ _ | ESetLanguage _ | EPlaceAt _ _ => true
  | _ => false
  end.

(** The locale the success callback of [fetchUserLanguageFromSFSF] finds. *)
Definition record_locale (oData : ODataResult) : option string :=
  match results oData with
  | Some (first :: _) =>
      if truthy_str (defaultLocale first) then defaultLocale first else None
  | _ => None
  end.

(** The directory has a record for the user, with a non-empty locale [l]. *)
Definition has_locale (o : ODataOutcome) (l : string) : Prop :=
  exists first rest,
    o = ODataSuccess (mkOData (Some (first :: rest)))
    /\ defaultLocale first = Some l /\ l <> "".

(** The directory gives no locale: the query fails, there is no record, or
    the first record has no locale or an empty one. *)
Definition no_locale (o : ODataOutcome) : Prop :=
  (exists e, o = ODataError e) \/ (exists e, o = ODataThrows e)
  \/ o = ODataSuccess (mkOData None) \/ o = ODataSuccess (mkOData (Some []))
  \/ (exists first rest,
        o = ODataSuccess (mkOData (Some (first :: rest)))
        /\ (defaultLocale first = None \/ defaultLocale first = Some "")).

(** A call of the user-resolution step: neither the write to the session
    storage nor a call of locale resolution, locale setting or mounting. *)
Definition user_phase (e : Event) : Prop :=
  is_setItem e = false /\ is_locale_or_mount e = false.

(** The three ways [setLanguage(sLanguage)] followed by the mount can end in
    [w]: [setLanguage] throws, the mount throws, or both return. *)
Inductive applied (sLanguage : LanguageValue) (w : World) : Settled unit * World -> Prop :=
| applied_refused e :
    setLanguage_throws sLanguage = Some e ->
    applied sLanguage w (Rejected e, logs [ESetLanguage sLanguage] w)
| applied_unmounted e :
    setLanguage_throws sLanguage = None ->
    placeAt_throws (count is_placeAt (events w)) = Some e ->
    applied sLanguage w
      (Rejected e,
       mkWorld (events w ++ [ESetLanguage sLanguage;
                             EPlaceAt "com.inetum.missolicitudes" "content"])
               (sessionStorage w) (Some sLanguage) (content w))
| applied_mounted :
    setLanguage_throws sLanguage = None ->
    placeAt_throws (count is_placeAt (events w)) = None ->
    applied sLanguage w (Resolved tt, localized_and_mounted sLanguage w).

(** The language [main] sets for a user it has resolved: the locale of the
    first record of the directory, or else the browser language. *)
Definition chosen_language (oUserData : JSValue) : LanguageValue :=
  match directory (getProperty oUserData "name") with
  | ODataSuccess oData => from_option Locale getBrowserLanguage (record_locale oData)
  | _ => getBrowserLanguage
  end.

(** The calls of [fetchUserLanguageFromSFSF] for a user id: one read, or none
    when the model or the filter cannot be built. *)
Definition directory_calls (sUserId : JSValue) : list Event :=
  match directory sUserId with
  | ODataUnavailable _ => []
  | _ => [EODataRead "/User" sUserId]
  end.

(** The world in which [main] sets the language for a resolved user: the
    write of the user was called and the directory was asked. *)
Definition user_known (oUserData : JSValue) (w1 : World) : World :=
  logs (directory_calls (getProperty oUserData "name"))
       (stored userInfo_key (JSON_stringify oUserData) w1).

(** The first of [navigator.language], [navigator.userLanguage] and "en"
    that is a non-empty string. *)
Definition effective_tag (sLanguage sUserLanguage : option string) : string :=
  match sLanguage with
  | Some (String c s) => String c s
  | _ =>
      match sUserLanguage with
      | Some (String c s) => String c s
      | _ => "en"
      end
  end.

(** What the script can pass to [setLanguage]: a non-empty string, or the
    inherited member that [getBrowserLanguage] returned. *)
Definition passed_language (v : LanguageValue) : Prop :=
  match v with
  | Locale sLocale => sLocale <> ""
  | Inherited name => getBrowserLanguage = Inherited name
  end.


Definition is_read (e : Event) : bool :=
  match e with EODataRead _ _ => true | _ => false end.

(** ** Properties *)

Lemma logs_logs l1 l2 w : logs l2 (logs l1 w) = logs (l1 ++ l2) w.
Proof. unfold logs; simpl. by rewrite <- app_assoc. Qed.

Lemma logs_nil w : logs [] w = w.
Proof. destruct w; unfold logs; simpl. by rewrite app_nil_r. Qed.

(** The logout request reloads the page when it is done, not while it is
    loading. *)
Example reload_when_done :
  onreadystatechange 3 = [] /\ onreadystatechange 4 = [EReload true].
Proof. split; reflexivity. Qed.

Lemma count_app p l1 l2 : count p (l1 ++ l2) = (count p l1 + count p l2)%nat.
Proof. induction l1 as [|e l1 IH]; simpl; [done|]. destruct (p e); simpl; lia. Qed.

Lemma nfetch_logs l w : nfetch (logs l w) = (nfetch w + count is_fetch l)%nat.
Proof. unfold nfetch, logs; simpl. apply count_app. Qed.

Lemma invalid_user_message_not_session_like :
  session_like (mkError invalid_user_message) = false.
Proof. reflexivity. Qed.

Lemma ok_401_403 r : status r = 401 \/ status r = 403 -> ok r = false.
Proof. unfold ok. intros [-> | ->]; reflexivity. Qed.

Ltac same_world := unfold log; rewrite ?logs_logs; reflexivity.

Ltac run_body :=
  unfold fetchCurrentUser_body, try_catch, bind, when, fetch, parseJsonResponse,
    text, forceLogoutAndReload, setTimeout, emit, never, ret, throw, log.

(** One run of the body on an answer 401 or 403. *)
Lemma body_auth attempt maxRetries retryDelay w r :
  identity (nfetch w) = HttpResponse r ->
  status r = 401 \/ status r = 403 ->
  fetchCurrentUser_body attempt maxRetries retryDelay w
  = (Pending, logs [EFetch currentUser_url; EXhrSend "GET" "/logout"] w).
Proof.
  intros Hr Hs. run_body. rewrite Hr, (ok_401_403 r Hs). simpl.
  replace ((status r =? 401) || (status r =? 403)) with true
    by (destruct Hs as [-> | ->]; reflexivity).
  same_world.
Qed.

Lemma body_network_error attempt maxRetries retryDelay w e :
  identity (nfetch w) = NetworkError e ->
  fetchCurrentUser_body attempt maxRetries retryDelay w
  = caught attempt maxRetries retryDelay e w.
Proof.
  intros Hr. run_body. unfold caught, session_like. rewrite Hr. simpl.
  destruct ((attempt =? 1) && _); simpl; [same_world|].
  destruct (attempt <? maxRetries); simpl; same_world.
Qed.

Lemma body_text_error attempt maxRetries retryDelay w r e :
  identity (nfetch w) = HttpResponse r ->
  ok r = true ->
  body r = BodyError e ->
  fetchCurrentUser_body attempt maxRetries retryDelay w
  = caught attempt maxRetries retryDelay e w.
Proof.
  intros Hr Hok Hb. run_body. unfold caught, session_like. rewrite Hr, Hok, Hb. simpl.
  destruct ((attempt =? 1) && _); simpl; [same_world|].
  destruct (attempt <? maxRetries); simpl; same_world.
Qed.

Lemma body_http_failure attempt maxRetries retryDelay w r :
  identity (nfetch w) = HttpResponse r ->
  ok r = false ->
  status r <> 401 -> status r <> 403 ->
  fetchCurrentUser_body attempt maxRetries retryDelay w
  = if attempt <? maxRetries
    then (Resolved (ReturnCall (attempt + 1)), logs (fetched_then_waited retryDelay) w)
    else caught attempt maxRetries retryDelay (mkError (server_error_message r)) w.
Proof.
  intros Hr Hok H1 H3. run_body. unfold caught, session_like. rewrite Hr, Hok. simpl.
  apply Z.eqb_neq in H1, H3. rewrite H1, H3. simpl.
  destruct (attempt <? maxRetries) eqn:Hlt; simpl; [same_world|].
  destruct ((attempt =? 1) && _); simpl; [same_world|].
  done.
Qed.

(** What [parseJsonResponse] resolves with on a body that was read. *)
Lemma parseJsonResponse_text r s w :
  body r = BodyText s ->
  parseJsonResponse r w
  = (Resolved (if looksLikeHtml s then JNull else default JNull (JSON_parse s)), w).
Proof.
  intros Hb. unfold parseJsonResponse, text, bind, ret. rewrite Hb.
  destruct (looksLikeHtml s); [done|]. by destruct (JSON_parse s).
Qed.

Lemma body_parsed attempt maxRetries retryDelay w r s :
  identity (nfetch w) = HttpResponse r ->
  ok r = true ->
  body r = BodyText s ->
  fetchCurrentUser_body attempt maxRetries retryDelay w
  = let oUserData := if looksLikeHtml s then JNull else default JNull (JSON_parse s) in
    if negb (truthy oUserData) then (Pending, logs fetched_then_logout w)
    else if negb (truthy (getProperty oUserData "name"))
         then caught attempt maxRetries retryDelay (mkError invalid_user_message) w
         else (Resolved (Return oUserData), logs fetched w).
Proof.
  intros Hr Hok Hb. cbv zeta.
  unfold fetchCurrentUser_body, try_catch, bind, fetch.
  rewrite Hr, Hok. cbn [negb]. rewrite (parseJsonResponse_text r s (log (EFetch currentUser_url) w) Hb).
  generalize (if looksLikeHtml s then JNull else default JNull (JSON_parse s)).
  intros v. unfold when, bind, forceLogoutAndReload, emit, never, ret, throw, log.
  destruct (truthy v); simpl; [|same_world].
  destruct (truthy (getProperty v "name")); simpl; [done|].
  unfold caught. rewrite invalid_user_message_not_session_like.
  change (includes "JSON" invalid_user_message || includes "HTML" invalid_user_message)
    with false.
  rewrite andb_false_r. simpl.
  destruct (attempt <? maxRetries); simpl; same_world.
Qed.

Lemma caught_outcome attempt maxRetries retryDelay e w :
  body_outcome attempt maxRetries retryDelay w (caught attempt maxRetries retryDelay e w).
Proof.
  unfold caught. destruct ((attempt =? 1) && session_like e); [constructor|].
  destruct (attempt <? maxRetries) eqn:Hlt.
  - apply body_retried. lia.
  - apply body_thrown. lia.
Qed.

(** Every run of the body ends in one of the four ways. *)
Lemma body_outcome_holds attempt maxRetries retryDelay w :
  body_outcome attempt maxRetries retryDelay w
    (fetchCurrentUser_body attempt maxRetries retryDelay w).
Proof.
  destruct (identity (nfetch w)) as [e | r] eqn:Hr.
  { rewrite (body_network_error _ _ _ _ _ Hr). apply caught_outcome. }
  destruct (ok r) eqn:Hok.
  - destruct (body r) as [s | e] eqn:Hb.
    + rewrite (body_parsed _ _ _ _ _ _ Hr Hok Hb). cbv zeta.
      destruct (truthy _) eqn:Hv; simpl; [|constructor].
      destruct (truthy (getProperty _ _)) eqn:Hn; simpl.
      * by apply body_returned.
      * apply caught_outcome.
    + rewrite (body_text_error _ _ _ _ _ _ Hr Hok Hb). apply caught_outcome.
  - destruct (decide (status r = 401 \/ status r = 403)) as [Hs | Hs].
    + rewrite (body_auth _ _ _ _ _ Hr Hs). constructor.
    + rewrite (body_http_failure _ _ _ _ _ Hr Hok) by tauto.
      destruct (attempt <? maxRetries) eqn:Hlt.
      * apply body_retried. lia.
      * apply caught_outcome.
Qed.

(** A call that is made again is made with [attempt + 1], under the guard
    [attempt < maxRetries], after one request and one delay. *)
Lemma body_call_inv attempt maxRetries retryDelay w attempt' w' :
  fetchCurrentUser_body attempt maxRetries retryDelay w = (Resolved (ReturnCall attempt'), w') ->
  attempt' = attempt + 1 /\ attempt < maxRetries
  /\ w' = logs (fetched_then_waited retryDelay) w.
Proof.
  intros H. pose proof (body_outcome_holds attempt maxRetries retryDelay w) as Ho.
  rewrite H in Ho. by inversion Ho.
Qed.

Lemma fetchCurrentUser_fuel_eq fuel attempt maxRetries retryDelay w :
  fetchCurrentUser_fuel fuel attempt maxRetries retryDelay w
  = match settle (fetchCurrentUser_body attempt maxRetries retryDelay w) with
    | Some r => Some r
    | None =>
        match fuel with
        | O => None
        | S fuel' =>
            fetchCurrentUser_fuel fuel' (attempt + 1) maxRetries retryDelay
              (logs (fetched_then_waited retryDelay) w)
        end
    end.
Proof.
  destruct fuel; simpl;
    destruct (fetchCurrentUser_body attempt maxRetries retryDelay w) as [[[v|a']|e|] w'] eqn:Hb;
    simpl; try done.
  by destruct (body_call_inv _ _ _ _ _ _ Hb) as (-> & _ & ->).
Qed.

Lemma fetchCurrentUser_fuel_stable maxRetries retryDelay fuel :
  forall attempt w,
    (Z.to_nat (maxRetries - attempt) <= fuel)%nat ->
    fetchCurrentUser_fuel fuel attempt maxRetries retryDelay w
    = fetchCurrentUser_fuel (Z.to_nat (maxRetries - attempt)) attempt maxRetries retryDelay w
    /\ is_Some (fetchCurrentUser_fuel fuel attempt maxRetries retryDelay w).
Proof.
  induction fuel as [|fuel IH]; intros attempt w Hf;
    rewrite !(fetchCurrentUser_fuel_eq _ attempt);
    pose proof (body_outcome_holds attempt maxRetries retryDelay w) as Ho;
    inversion Ho as [ | Hlt | | ]; simpl; try (split; [done | by eexists]); try lia.
  replace (Z.to_nat (maxRetries - attempt))
    with (S (Z.to_nat (maxRetries - (attempt + 1)))) by lia.
  apply IH. lia.
Qed.

(** The chain of calls ends: [maxRetries - attempt] further calls suffice,
    and more fuel changes nothing. *)
Lemma fetchCurrentUser_fuel_enough maxRetries retryDelay fuel attempt w :
  (Z.to_nat (maxRetries - attempt) <= fuel)%nat ->
  fetchCurrentUser_fuel fuel attempt maxRetries retryDelay w
  = Some (fetchCurrentUser attempt maxRetries retryDelay w).
Proof.
  intros Hf.
  destruct (fetchCurrentUser_fuel_stable maxRetries retryDelay fuel attempt w Hf)
    as [Heq [r Hr]].
  unfold fetchCurrentUser. rewrite <- Heq, Hr. done.
Qed.

(** The recursion equation of [fetchCurrentUser], as the source has it. *)
Lemma fetchCurrentUser_unfold attempt maxRetries retryDelay w :
  fetchCurrentUser attempt maxRetries retryDelay w
  = match fetchCurrentUser_body attempt maxRetries retryDelay w with
    | (Resolved (Return oUserData), w') => (Resolved oUserData, w')
    | (Resolved (ReturnCall attempt'), w') =>
        fetchCurrentUser attempt' maxRetries retryDelay w'
    | (Rejected e, w') => (Rejected e, w')
    | (Pending, w') => (Pending, w')
    end.
Proof.
  pose proof (fetchCurrentUser_fuel_enough maxRetries retryDelay
                (S (Z.to_nat (maxRetries - attempt))) attempt w) as H.
  simpl in H.
  destruct (fetchCurrentUser_body attempt maxRetries retryDelay w) as [[[v|a']|e|] w'] eqn:Hb;
    try (specialize (H ltac:(lia)); by inversion H).
  destruct (body_call_inv _ _ _ _ _ _ Hb) as (-> & Hlt & ->).
  rewrite fetchCurrentUser_fuel_enough in H by lia.
  specialize (H ltac:(lia)). by inversion H.
Qed.

Lemma fetchCurrentUser_chain maxRetries retryDelay n :
  forall attempt w,
    Z.to_nat (maxRetries - attempt) = n ->
    retry_chain maxRetries retryDelay attempt w
      (fetchCurrentUser attempt maxRetries retryDelay w).
Proof.
  induction n as [|n IH]; intros attempt w Hn; rewrite fetchCurrentUser_unfold;
    pose proof (body_outcome_holds attempt maxRetries retryDelay w) as Ho;
    inversion Ho as [ | Hlt | v Hv Hname | e Hge ];
    try (by constructor); try lia.
  apply chain_retried; [done|]. apply IH. lia.
Qed.

(** ** The claims about one answer of the identity endpoint *)

(** C3: whatever the attempt number, an answer with status 401 or 403 makes
    [fetchCurrentUser] send exactly one GET request to /logout and then stay
    pending for ever: after the request to the endpoint and the logout request
    nothing else is done, in particular no delay and no further request. *)
Theorem auth_failure_logs_out_and_suspends attempt maxRetries retryDelay w r :
  identity (nfetch w) = HttpResponse r ->
  status r = 401 \/ status r = 403 ->
  fetchCurrentUser attempt maxRetries retryDelay w
  = (Pending, logs [EFetch currentUser_url; EXhrSend "GET" "/logout"] w)
  /\ count is_logout (events (snd (fetchCurrentUser attempt maxRetries retryDelay w)))
     = S (count is_logout (events w))
  /\ nfetch (snd (fetchCurrentUser attempt maxRetries retryDelay w)) = S (nfetch w).
Proof.
  intros Hr Hs.
  assert (fetchCurrentUser attempt maxRetries retryDelay w
          = (Pending, logs [EFetch currentUser_url; EXhrSend "GET" "/logout"] w)) as ->.
  { rewrite fetchCurrentUser_unfold, (body_auth _ _ _ _ _ Hr Hs). done. }
  split; [done|]. simpl. rewrite nfetch_logs. unfold logs; simpl.
  rewrite count_app. simpl. split; lia.
Qed.

(** C9: on an answer with a success status whose body was read,
    [parseJsonResponse] returns null when the text looks like HTML and also
    whenever [JSON.parse] throws on it; either way [fetchCurrentUser], at any
    attempt, sends the logout request and stays pending for ever. *)
Theorem unparsable_body_forces_reauthentication attempt maxRetries retryDelay w r s :
  identity (nfetch w) = HttpResponse r ->
  ok r = true ->
  body r = BodyText s ->
  looksLikeHtml s = true \/ JSON_parse s = None ->
  (forall w0, parseJsonResponse r w0 = (Resolved JNull, w0))
  /\ fetchCurrentUser attempt maxRetries retryDelay w
     = (Pending, logs [EFetch currentUser_url; EXhrSend "GET" "/logout"] w).
Proof.
  intros Hr Hok Hb Hs.
  assert ((if looksLikeHtml s then JNull else default JNull (JSON_parse s)) = JNull) as Hnull.
  { destruct Hs as [-> | ->]; [done|]. by destruct (looksLikeHtml s). }
  split.
  - intros w0. by rewrite (parseJsonResponse_text _ _ _ Hb), Hnull.
  - rewrite fetchCurrentUser_unfold, (body_parsed _ _ _ _ _ _ Hr Hok Hb). cbv zeta.
    by rewrite Hnull.
Qed.

(** C1 (amended): on an answer with a success status whose body parses to a
    truthy value without a truthy [name], the attempt throws the
    invalid-user-data error, which the [catch] treats like any thrown error
    whose message has neither "JSON" nor "HTML" in it: no logout request is
    sent; while [attempt < maxRetries] the call waits [retryDelay] and goes
    on with [attempt + 1]; otherwise it rejects with that error. *)
Theorem nameless_user_is_retried attempt maxRetries retryDelay w r s v :
  identity (nfetch w) = HttpResponse r ->
  ok r = true ->
  body r = BodyText s ->
  looksLikeHtml s = false ->
  JSON_parse s = Some v ->
  truthy v = true ->
  truthy (getProperty v "name") = false ->
  fetchCurrentUser attempt maxRetries retryDelay w
  = if attempt <? maxRetries
    then fetchCurrentUser (attempt + 1) maxRetries retryDelay
           (logs [EFetch currentUser_url; ESetTimeout retryDelay] w)
    else (Rejected (mkError invalid_user_message), logs [EFetch currentUser_url] w).
Proof.
  intros Hr Hok Hb Hh Hp Hv Hn.
  rewrite fetchCurrentUser_unfold, (body_parsed _ _ _ _ _ _ Hr Hok Hb). cbv zeta.
  rewrite Hh, Hp. simpl. rewrite Hv, Hn. simpl.
  unfold caught. rewrite invalid_user_message_not_session_like, andb_false_r.
  by destruct (attempt <? maxRetries).
Qed.

(** ** The claims about the chain of attempts *)

Lemma nfetch_waited retryDelay w :
  nfetch (logs (fetched_then_waited retryDelay) w) = S (nfetch w).
Proof. rewrite nfetch_logs. simpl. lia. Qed.

Lemma generic_failure_step attempt maxRetries retryDelay w e :
  generic_failure attempt (identity (nfetch w)) e ->
  attempt < maxRetries \/ attempt <> 1 ->
  fetchCurrentUser attempt maxRetries retryDelay w
  = if attempt <? maxRetries
    then fetchCurrentUser (attempt + 1) maxRetries retryDelay
           (logs (fetched_then_waited retryDelay) w)
    else (Rejected e, logs fetched w).
Proof.
  intros Hf Ha. rewrite fetchCurrentUser_unfold.
  assert (forall e', (attempt = 1 -> session_like e' = false) ->
            caught attempt maxRetries retryDelay e' w
            = if attempt <? maxRetries
              then (Resolved (ReturnCall (attempt + 1)),
                    logs (fetched_then_waited retryDelay) w)
              else (Rejected e', logs fetched w)) as Hcaught.
  { intros e' He'. unfold caught. destruct (attempt =? 1) eqn:H1; [|done].
    apply Z.eqb_eq in H1. by rewrite (He' H1). }
  inversion Hf as [r Hok H401 H403 Hr | e' He' Hr | r e' Hok Hb He' Hr
                   | r s v Hok Hb Hh Hp Hv Hn Hr]; subst; symmetry in Hr.
  - rewrite (body_http_failure _ _ _ _ _ Hr Hok H401 H403).
    destruct (attempt <? maxRetries) eqn:Hlt; [done|].
    unfold caught. replace (attempt =? 1) with false by lia. simpl. by rewrite Hlt.
  - rewrite (body_network_error _ _ _ _ _ Hr), (Hcaught _ He').
    by destruct (attempt <? maxRetries).
  - rewrite (body_text_error _ _ _ _ _ _ Hr Hok Hb), (Hcaught _ He').
    by destruct (attempt <? maxRetries).
  - rewrite (body_parsed _ _ _ _ _ _ Hr Hok Hb). cbv zeta. rewrite Hh, Hp. simpl.
    rewrite Hv, Hn. simpl. rewrite Hcaught by done.
    by destruct (attempt <? maxRetries).
Qed.

(** [k] failing attempts below [maxRetries] are [k] requests, each followed
    by one delay. *)
Lemma failing_attempts maxRetries retryDelay k :
  forall attempt w,
    (forall i, (i < k)%nat ->
       exists e, generic_failure (attempt + Z.of_nat i) (identity (nfetch w + i)%nat) e) ->
    attempt + Z.of_nat k <= maxRetries ->
    fetchCurrentUser attempt maxRetries retryDelay w
    = fetchCurrentUser (attempt + Z.of_nat k) maxRetries retryDelay
        (logs (waits k retryDelay) w).
Proof.
  induction k as [|k IH]; intros attempt w Hfail Hle.
  - unfold waits; simpl. by rewrite logs_nil, Z.add_0_r.
  - destruct (Hfail O ltac:(lia)) as [e He].
    rewrite Nat.add_0_r, Z.add_0_r in He.
    rewrite (generic_failure_step _ maxRetries retryDelay _ _ He) by lia.
    replace (attempt <? maxRetries) with true by lia.
    rewrite IH.
    + rewrite logs_logs. f_equal. lia.
    + intros i Hi. destruct (Hfail (S i) ltac:(lia)) as [e' He'].
      exists e'. rewrite nfetch_waited.
      replace (attempt + 1 + Z.of_nat i) with (attempt + Z.of_nat (S i)) by lia.
      by replace (S (nfetch w) + i)%nat with (nfetch w + S i)%nat by lia.
    + lia.
Qed.

Lemma valid_user_step attempt maxRetries retryDelay w u :
  valid_user_answer (identity (nfetch w)) u ->
  fetchCurrentUser attempt maxRetries retryDelay w = (Resolved u, logs fetched w).
Proof.
  intros (r & s & Hr & Hok & Hb & Hh & Hp & Hv & Hn).
  rewrite fetchCurrentUser_unfold, (body_parsed _ _ _ _ _ _ Hr Hok Hb). cbv zeta.
  rewrite Hh, Hp. simpl. by rewrite Hv, Hn.
Qed.

Lemma generic_http_failure_is_generic attempt a :
  generic_http_failure a -> exists e, generic_failure attempt a e.
Proof. intros (r & -> & Hok & H1 & H3). eexists. by apply failed_status. Qed.

(** C2: when the identity endpoint answers the first four requests with a
    failure status other than 401 and 403 and the fifth with the JSON text of
    a user with a name, [fetchCurrentUser(1, 5, 1000)] resolves with that
    user after exactly five requests with exactly four delays of 1000 ms
    between them. *)
Theorem four_failures_then_user w u :
  (forall i, (i < 4)%nat -> generic_http_failure (identity (nfetch w + i)%nat)) ->
  valid_user_answer (identity (nfetch w + 4)%nat) u ->
  fetchCurrentUser 1 5 1000 w
  = (Resolved u,
     logs [EFetch currentUser_url; ESetTimeout 1000;
           EFetch currentUser_url; ESetTimeout 1000;
           EFetch currentUser_url; ESetTimeout 1000;
           EFetch currentUser_url; ESetTimeout 1000;
           EFetch currentUser_url] w).
Proof.
  intros Hfail Hlast.
  rewrite (failing_attempts 5 1000 4 1 w).
  - rewrite (valid_user_step _ _ _ _ u).
    + by rewrite logs_logs.
    + rewrite nfetch_logs. exact Hlast.
  - intros i Hi. apply generic_http_failure_is_generic. by apply Hfail.
  - lia.
Qed.



(** ** The claims about the sequencer *)

Lemma bind_assoc {A B C} (m : Async A) (k : A -> Async B) (h : B -> Async C) w :
  bind (bind m k) h w = bind m (fun a => bind (k a) h) w.
Proof. unfold bind. by destruct (m w) as [[a|e|] w']. Qed.

(** [main], by the way the promise of [fetchCurrentUser] settles. *)
Lemma main_unfold w :
  main w
  = match fetchCurrentUser 1 MAX_RETRIES RETRY_DELAY w with
    | (Resolved oUserData, w1) =>
        (sLanguage <- resolve_locale oUserData ;; apply_locale_and_mount sLanguage)
          (stored userInfo_key (JSON_stringify oUserData) w1)
    | (Rejected _, w1) => apply_locale_and_mount getBrowserLanguage w1
    | (Pending, w1) => (Pending, w1)
    end.
Proof.
  unfold main, resolve_locale, apply_locale_and_mount, stored, try_assign, bind at 1.
  destruct (fetchCurrentUser 1 MAX_RETRIES RETRY_DELAY w) as [[u|e|] w1]; try done.
  unfold try_catch at 1, bind at 1, setItem, ret.
  destruct (setItem_throws _ _); simpl; rewrite bind_assoc; done.
Qed.

Lemma fetchUserLanguageFromSFSF_eq sUserId w :
  fetchUserLanguageFromSFSF sUserId w
  = (Resolved match directory sUserId with
              | ODataSuccess oData => record_locale oData
              | _ => None
              end,
     logs (directory_calls sUserId) w).
Proof.
  unfold fetchUserLanguageFromSFSF, try_catch, bind, new_ODataModel, read, record_locale,
    directory_calls, ret, throw.
  destruct (directory sUserId) as [oData | oError | e | e]; try done.
  - destruct (results oData) as [[|first rest]|]; try done.
    by destruct (truthy_str (defaultLocale first)).
  - by rewrite logs_nil.
Qed.

Lemma count_placeAt_setLanguage l sLanguage :
  count is_placeAt (l ++ [ESetLanguage sLanguage]) = count is_placeAt l.
Proof. rewrite count_app. simpl. lia. Qed.

Lemma apply_locale_and_mount_returns sLanguage w :
  setLanguage_throws sLanguage = None ->
  placeAt_throws (count is_placeAt (events w)) = None ->
  apply_locale_and_mount sLanguage w = (Resolved tt, localized_and_mounted sLanguage w).
Proof.
  intros Hl Hm. unfold apply_locale_and_mount, bind, setLanguage, mount, placeAt.
  rewrite Hl. simpl. rewrite count_placeAt_setLanguage, Hm.
  unfold localized_and_mounted. by rewrite <- app_assoc.
Qed.

(** C4: when each of the five attempts of [fetchCurrentUser(1, 5, 1000)]
    fails with neither an authentication failure nor an error taken for an
    expired session, the call rejects with the error of the last attempt
    (for a failure status, the message with that status and its text), after
    five requests and four delays; and [main] goes on to set the language the
    browser gives and to mount, writing nothing to the session storage. *)
Theorem five_failures_then_browser_locale w e :
  (forall i, (i < 4)%nat ->
     exists e', generic_failure (1 + Z.of_nat i) (identity (nfetch w + i)%nat) e') ->
  generic_failure 5 (identity (nfetch w + 4)%nat) e ->
  let w1 := logs [EFetch currentUser_url; ESetTimeout 1000;
                  EFetch currentUser_url; ESetTimeout 1000;
                  EFetch currentUser_url; ESetTimeout 1000;
                  EFetch currentUser_url; ESetTimeout 1000;
                  EFetch currentUser_url] w in
  fetchCurrentUser 1 5 1000 w = (Rejected e, w1)
  /\ main w = apply_locale_and_mount getBrowserLanguage w1
  /\ (setLanguage_throws getBrowserLanguage = None ->
      placeAt_throws (count is_placeAt (events w)) = None ->
      main w = (Resolved tt, localized_and_mounted getBrowserLanguage w1)
      /\ sessionStorage (localized_and_mounted getBrowserLanguage w1) = sessionStorage w).
Proof.
  intros Hfail Hlast w1.
  assert (fetchCurrentUser 1 5 1000 w = (Rejected e, w1)) as Hfetch.
  { rewrite (failing_attempts 5 1000 4 1 w Hfail) by lia.
    rewrite (generic_failure_step _ _ _ _ e).
    - simpl. by rewrite logs_logs.
    - rewrite nfetch_logs. exact Hlast.
    - right. lia. }
  assert (main w = apply_locale_and_mount getBrowserLanguage w1) as Hmain.
  { rewrite main_unfold. unfold MAX_RETRIES, RETRY_DELAY. by rewrite Hfetch. }
  repeat split; try done.
  rewrite Hmain. apply apply_locale_and_mount_returns; [done|].
  unfold w1, logs; simpl. rewrite !count_app. simpl.
  by replace (count is_placeAt (events w) + 0)%nat with (count is_placeAt (events w)) by lia.
Qed.

Lemma chain_world maxRetries retryDelay attempt w r :
  retry_chain maxRetries retryDelay attempt w r ->
  exists l, snd r = logs l w /\ Forall user_phase l.
Proof.
  induction 1 as [a w | a w v _ _ | a w e _ | a w r Hlt _ (l & Hl & Hp)]; simpl.
  - eexists; split; [done|]. by repeat constructor.
  - eexists; split; [done|]. by repeat constructor.
  - eexists; split; [done|]. by repeat constructor.
  - exists (fetched_then_waited retryDelay ++ l). rewrite Hl, logs_logs. split; [done|].
    apply Forall_app; split; [by repeat constructor | done].
Qed.

Lemma chain_resolved maxRetries retryDelay attempt w r :
  retry_chain maxRetries retryDelay attempt w r ->
  forall u, fst r = Resolved u ->
    truthy u = true /\ truthy (getProperty u "name") = true.
Proof.
  induction 1 as [a w | a w v Hv Hn | a w e _ | a w r Hlt _ IH]; simpl; intros u Hu;
    try done.
  - by inversion Hu; subst.
  - by apply IH.
Qed.

(** What [fetchCurrentUser] resolves with is a user with a name, and until it
    settles nothing is done but requests, delays and the logout request. *)
Lemma fetchCurrentUser_settles attempt maxRetries retryDelay w s w1 :
  fetchCurrentUser attempt maxRetries retryDelay w = (s, w1) ->
  (exists l, w1 = logs l w /\ Forall user_phase l)
  /\ (forall u, s = Resolved u -> truthy u = true /\ truthy (getProperty u "name") = true).
Proof.
  intros H.
  pose proof (fetchCurrentUser_chain maxRetries retryDelay _ attempt w eq_refl) as Hc.
  rewrite H in Hc. split.
  - apply (chain_world _ _ _ _ _ Hc).
  - apply (chain_resolved _ _ _ _ _ Hc).
Qed.

Lemma resolve_locale_eq oUserData w :
  truthy oUserData = true -> truthy (getProperty oUserData "name") = true ->
  resolve_locale oUserData w
  = (Resolved (chosen_language oUserData),
     logs (directory_calls (getProperty oUserData "name")) w).
Proof.
  intros Hu Hn. unfold resolve_locale, chosen_language, bind, try_catch, ret.
  rewrite Hu, Hn. simpl. rewrite fetchUserLanguageFromSFSF_eq.
  destruct (directory _) as [oData | oError | e | e]; try done.
  unfold record_locale. destruct (results oData) as [[|first rest]|]; try done.
  destruct (defaultLocale first) as [l|]; simpl; [|done].
  destruct (isEmpty l) eqn:He; simpl; [done|]. by rewrite He.
Qed.

Lemma record_locale_has o l :
  has_locale o l ->
  exists oData, o = ODataSuccess oData /\ record_locale oData = Some l.
Proof.
  intros (first & rest & -> & Hl & Hne). eexists; split; [done|].
  unfold record_locale; simpl. rewrite Hl; simpl. by destruct l.
Qed.

Lemma record_locale_none o :
  no_locale o ->
  match o with ODataSuccess oData => record_locale oData | _ => None end = None.
Proof.
  intros [[e ->] | [[e ->] | [-> | [-> | (first & rest & -> & Hl)]]]]; try done.
  unfold record_locale; simpl. by destruct Hl as [-> | ->].
Qed.

Lemma directory_calls_read sUserId :
  (forall e, directory sUserId <> ODataUnavailable e) ->
  directory_calls sUserId = [EODataRead "/User" sUserId].
Proof.
  intros Hd. unfold directory_calls.
  destruct (directory sUserId) as [ | | | e]; try done. by destruct (Hd e).
Qed.

Lemma has_locale_available o l e : has_locale o l -> o <> ODataUnavailable e.
Proof. by intros (first & rest & -> & _). Qed.

Lemma no_locale_available o e : no_locale o -> o <> ODataUnavailable e.
Proof.
  by intros [[e' ->] | [[e' ->] | [-> | [-> | (first & rest & -> & _)]]]].
Qed.

(** C7: for every user id, [fetchUserLanguageFromSFSF] resolves with the
    locale of the first record when the directory returns a non-empty list
    whose first record has a non-empty [defaultLocale], and with null when
    the list is empty or missing, that locale is empty or missing, or the
    query fails (the error callback runs, [read] throws, or the model cannot
    be built and nothing is read); it never rejects. In [main], for the user
    that [fetchCurrentUser] resolved with, the language set is that locale in
    the first case, whatever the browser reports, and the browser language in
    the others. *)
Theorem directory_locale_or_browser_fallback sUserId w :
  (forall l, has_locale (directory sUserId) l ->
     fetchUserLanguageFromSFSF sUserId w
     = (Resolved (Some l), log (EODataRead "/User" sUserId) w))
  /\ (no_locale (directory sUserId) ->
      fetchUserLanguageFromSFSF sUserId w
      = (Resolved None, log (EODataRead "/User" sUserId) w))
  /\ (forall e, directory sUserId = ODataUnavailable e ->
      fetchUserLanguageFromSFSF sUserId w = (Resolved None, w))
  /\ (exists o, fetchUserLanguageFromSFSF sUserId w
                = (Resolved o, logs (directory_calls sUserId) w))
  /\ (forall oUserData w1,
        fetchCurrentUser 1 MAX_RETRIES RETRY_DELAY w = (Resolved oUserData, w1) ->
        getProperty oUserData "name" = sUserId ->
        let w2 := log (EODataRead "/User" sUserId)
                      (stored userInfo_key (JSON_stringify oUserData) w1) in
        (forall l, has_locale (directory sUserId) l ->
           main w = apply_locale_and_mount (Locale l) w2)
        /\ (no_locale (directory sUserId) ->
            main w = apply_locale_and_mount getBrowserLanguage w2)
        /\ (forall e, directory sUserId = ODataUnavailable e ->
            main w = apply_locale_and_mount getBrowserLanguage
                       (stored userInfo_key (JSON_stringify oUserData) w1))).
Proof.
  rewrite fetchUserLanguageFromSFSF_eq. split; [|split; [|split; [|split]]].
  - intros l Hl.
    rewrite directory_calls_read by (intros e; by apply (has_locale_available _ l)).
    by destruct (record_locale_has _ _ Hl) as (oData & -> & ->).
  - intros Hn. rewrite directory_calls_read by (intros e; by apply no_locale_available).
    by rewrite (record_locale_none _ Hn).
  - intros e He. unfold directory_calls. by rewrite He, logs_nil.
  - by eexists.
  - intros oUserData w1 Hfetch Hid w2.
    destruct (fetchCurrentUser_settles _ _ _ _ _ _ Hfetch) as [_ Hu].
    destruct (Hu _ eq_refl) as [Hv Hname].
    rewrite main_unfold, Hfetch. unfold bind.
    rewrite (resolve_locale_eq _ _ Hv Hname). unfold chosen_language. rewrite Hid.
    split; [|split].
    + intros l Hl.
      rewrite directory_calls_read by (intros e; by apply (has_locale_available _ l)).
      by destruct (record_locale_has _ _ Hl) as (oData & -> & ->).
    + intros Hn.
      rewrite directory_calls_read by (intros e; by apply no_locale_available).
      pose proof (record_locale_none _ Hn) as Hnone.
      destruct (directory sUserId); [by rewrite Hnone | done | done | done].
    + intros e He. unfold directory_calls. by rewrite He, logs_nil.
Qed.

Lemma apply_locale_and_mount_world sLanguage w :
  exists l,
    events (snd (apply_locale_and_mount sLanguage w)) = events w ++ l
    /\ count is_setItem l = O
    /\ sessionStorage (snd (apply_locale_and_mount sLanguage w)) = sessionStorage w.
Proof.
  unfold apply_locale_and_mount, bind, setLanguage, mount, placeAt.
  destruct (setLanguage_throws sLanguage); simpl.
  - by eexists.
  - destruct (placeAt_throws _); simpl; rewrite <- app_assoc; by eexists.
Qed.

Lemma stored_events key value w :
  events (stored key value w) = events w ++ [ESetItem key value].
Proof. unfold stored, setItem. by destruct (setItem_throws key value). Qed.

Lemma stored_storage key value w :
  sessionStorage (stored key value w)
  = match setItem_throws key value with
    | None => <[key := value]> (sessionStorage w)
    | Some _ => sessionStorage w
    end.
Proof. unfold stored, setItem. by destruct (setItem_throws key value). Qed.

Lemma stored_content key value w : content (stored key value w) = content w.
Proof. unfold stored, setItem. by destruct (setItem_throws key value). Qed.

Lemma directory_calls_no_setItem sUserId : count is_setItem (directory_calls sUserId) = O.
Proof. unfold directory_calls. by destruct (directory sUserId). Qed.

Lemma user_phase_no_setItem l : Forall user_phase l -> count is_setItem l = O.
Proof. induction 1 as [|e l [He _] _ IH]; simpl; [done|]. by rewrite He. Qed.

(** C8 (amended): when [fetchCurrentUser] resolves with a user, [main] calls
    [sessionStorage.setItem] with [com:missolicitudes:userInfo] and the JSON
    text of that user right after the calls of user resolution, before any
    call of locale resolution, locale setting or mounting, and calls it no
    other time. When the call returns, the storage holds that text under the
    key and is otherwise as before; when the call throws, the error is
    swallowed by the [try] of step 1, nothing is written and [main] goes on
    with the user all the same. When [fetchCurrentUser] rejects or stays
    pending, [main] does not call [setItem] and the storage is unchanged. *)
Theorem user_is_stored_before_locale w :
  (forall oUserData w1,
     fetchCurrentUser 1 MAX_RETRIES RETRY_DELAY w = (Resolved oUserData, w1) ->
     exists pre rest,
       events w1 = events w ++ pre
       /\ Forall user_phase pre
       /\ events (snd (main w))
          = events w ++ pre ++ ESetItem userInfo_key (JSON_stringify oUserData) :: rest
       /\ count is_setItem rest = O
       /\ main w
          = apply_locale_and_mount (chosen_language oUserData) (user_known oUserData w1)
       /\ (setItem_throws userInfo_key (JSON_stringify oUserData) = None ->
           sessionStorage (snd (main w))
           = <[userInfo_key := JSON_stringify oUserData]> (sessionStorage w))
       /\ (forall e,
             setItem_throws userInfo_key (JSON_stringify oUserData) = Some e ->
             sessionStorage (snd (main w)) = sessionStorage w))
  /\ (forall s w1,
        fetchCurrentUser 1 MAX_RETRIES RETRY_DELAY w = (s, w1) ->
        (forall oUserData, s <> Resolved oUserData) ->
        exists l,
          events (snd (main w)) = events w ++ l
          /\ count is_setItem l = O
          /\ sessionStorage (snd (main w)) = sessionStorage w).
Proof.
  split.
  - intros u w1 Hfetch.
    destruct (fetchCurrentUser_settles _ _ _ _ _ _ Hfetch) as [(pre & -> & Hpre) Hu].
    destruct (Hu _ eq_refl) as [Hv Hname].
    rewrite main_unfold, Hfetch. unfold bind.
    rewrite (resolve_locale_eq _ _ Hv Hname). fold (user_known u (logs pre w)).
    destruct (apply_locale_and_mount_world (chosen_language u) (user_known u (logs pre w)))
      as (tail & He & Hc & Hs).
    exists pre, (directory_calls (getProperty u "name") ++ tail).
    rewrite He, Hs. unfold user_known. simpl. rewrite stored_events, stored_storage.
    simpl. rewrite <- !app_assoc. simpl.
    rewrite count_app, directory_calls_no_setItem, Hc.
    repeat split; try done.
    + intros Hnone. by rewrite Hnone.
    + intros e Hsome. by rewrite Hsome.
  - intros s w1 Hfetch Hs.
    destruct (fetchCurrentUser_settles _ _ _ _ _ _ Hfetch) as [(pre & -> & Hpre) _].
    rewrite main_unfold, Hfetch. destruct s as [u | e |].
    + by destruct (Hs u).
    + destruct (apply_locale_and_mount_world getBrowserLanguage (logs pre w))
        as (tail & He & Hc & Hst).
      exists (pre ++ tail). rewrite He, Hst. simpl. rewrite app_assoc. split; [done|].
      split; [|done]. by rewrite count_app, Hc, (user_phase_no_setItem _ Hpre).
    + exists pre. simpl. split; [done|]. split; [|done].
      by apply user_phase_no_setItem.
Qed.

(** [main] rejects only with an error thrown by [setLanguage] or by the
    mount. *)
Lemma main_rejects_in_framework w e w1 :
  main w = (Rejected e, w1) ->
  (exists sLanguage, setLanguage_throws sLanguage = Some e)
  \/ (exists n, placeAt_throws n = Some e).
Proof.
  assert (forall l w0, apply_locale_and_mount l w0 = (Rejected e, w1) ->
            (exists sLanguage, setLanguage_throws sLanguage = Some e)
            \/ (exists n, placeAt_throws n = Some e)) as Happly.
  { intros l w0. unfold apply_locale_and_mount, bind, setLanguage, mount, placeAt.
    destruct (setLanguage_throws l) as [e'|] eqn:Hl; simpl.
    - intros [= <- _]. left. by exists l.
    - destruct (placeAt_throws _) as [e'|] eqn:Hm; [|done].
      intros [= <- _]. right. by eexists. }
  rewrite main_unfold.
  destruct (fetchCurrentUser 1 MAX_RETRIES RETRY_DELAY w) as [[u|e'|] w0] eqn:Hfetch;
    [| apply Happly | done].
  destruct (fetchCurrentUser_settles _ _ _ _ _ _ Hfetch) as [_ Hu].
  destruct (Hu _ eq_refl) as [Hv Hname].
  unfold bind. rewrite (resolve_locale_eq _ _ Hv Hname). apply Happly.
Qed.

(** C5 (amended): when [main] rejects, the top-level [catch] takes the
    language from the browser mapping alone, sets it and mounts the root
    component; the application ends up mounted provided these two calls of
    the framework return inside the handler. When user resolution stays
    pending after the logout request, [main] never settles, the handler does
    not run and nothing is set or mounted. *)
Theorem rejected_main_is_caught w :
  (forall e w1,
     main w = (Rejected e, w1) ->
     startup w = apply_locale_and_mount getBrowserLanguage w1
     /\ (setLanguage_throws getBrowserLanguage = None ->
         placeAt_throws (count is_placeAt (events w1)) = None ->
         startup w = (Resolved tt, localized_and_mounted getBrowserLanguage w1)
         /\ configuredLanguage (snd (startup w)) = Some getBrowserLanguage
         /\ mounted (snd (startup w))))
  /\ (forall w1,
        fetchCurrentUser 1 MAX_RETRIES RETRY_DELAY w = (Pending, w1) ->
        startup w = (Pending, w1)
        /\ configuredLanguage w1 = configuredLanguage w
        /\ content w1 = content w).
Proof.
  split.
  - intros e w1 Hmain.
    assert (startup w = apply_locale_and_mount getBrowserLanguage w1) as Hs.
    { unfold startup, try_catch. by rewrite Hmain. }
    split; [done|]. intros Hl Hm.
    rewrite Hs, (apply_locale_and_mount_returns _ _ Hl Hm).
    split; [done|]. split; [done|]. unfold mounted; simpl.
    by destruct (content w1).
  - intros w1 Hfetch.
    destruct (fetchCurrentUser_settles _ _ _ _ _ _ Hfetch) as [(l & -> & _) _].
    unfold startup, try_catch. rewrite main_unfold, Hfetch. done.
Qed.

(** ** The claim about the browser language *)

Lemma mMap_lookup k v : mMap !! k = Some v <-> (k, v) ∈ mMap_entries.
Proof.
  unfold mMap. symmetry. apply elem_of_list_to_map.
  apply (bool_decide_unpack _). by vm_compute.
Qed.

(** A lookup in [mMap] finds a locale of the table under one of the nine
    keys, the inherited member under an inherited name, and nothing else. *)
Lemma mMap_get_cases sLang :
  (exists v, mMap_get sLang = Some (Locale v)
             /\ (sLang, v) ∈ mMap_entries
             /\ (v = "es_ES" \/ v = "ca_ES" \/ v = "en_US"))
  \/ (mMap_get sLang = Some (Inherited sLang) /\ (sLang ∈ Object_prototype_names)
      /\ mMap !! sLang = None)
  \/ (mMap_get sLang = None /\ (sLang ∉ Object_prototype_names)
      /\ mMap !! sLang = None).
Proof.
  unfold mMap_get. destruct (mMap !! sLang) as [v|] eqn:Hv.
  - left. exists v. apply mMap_lookup in Hv. split; [done|]. split; [done|].
    unfold mMap_entries in Hv. rewrite !elem_of_cons, elem_of_nil in Hv.
    repeat (destruct Hv as [Hv | Hv];
            [injection Hv as _ ->;
             first [left; reflexivity | right; left; reflexivity | right; right; reflexivity]
            |]).
    destruct Hv.
  - right. destruct (bool_decide (sLang ∈ Object_prototype_names)) eqn:Hd.
    + left. apply bool_decide_eq_true in Hd. by split.
    + right. apply bool_decide_eq_false in Hd. by split.
Qed.

(** ** Further properties of the user request *)

(** X3: when the request or the reading of the body throws, the [catch] of
    [fetchCurrentUser] decides by the attempt number and the message: on
    attempt 1 an error whose message contains "JSON" or "HTML" sends the
    logout request and leaves the call pending; any other error is retried
    after [retryDelay] while [attempt < maxRetries] and is otherwise the error
    the call rejects with. *)
Theorem thrown_error_outcome attempt maxRetries retryDelay w e :
  identity (nfetch w) = NetworkError e
  \/ (exists r, identity (nfetch w) = HttpResponse r /\ ok r = true /\ body r = BodyError e) ->
  fetchCurrentUser attempt maxRetries retryDelay w
  = if (attempt =? 1) && session_like e
    then (Pending, logs [EFetch currentUser_url; EXhrSend "GET" "/logout"] w)
    else if attempt <? maxRetries
         then fetchCurrentUser (attempt + 1) maxRetries retryDelay
                (logs [EFetch currentUser_url; ESetTimeout retryDelay] w)
         else (Rejected e, logs [EFetch currentUser_url] w).
Proof.
  intros Hthrown. rewrite fetchCurrentUser_unfold.
  assert (fetchCurrentUser_body attempt maxRetries retryDelay w
          = caught attempt maxRetries retryDelay e w) as ->.
  { destruct Hthrown as [Hr | (r & Hr & Hok & Hb)].
    - by apply body_network_error.
    - by apply (body_text_error _ _ _ _ r). }
  unfold caught. destruct ((attempt =? 1) && session_like e); [done|].
  by destruct (attempt <? maxRetries).
Qed.

(** X4: an answer with a failure status other than 401 and 403 is retried
    after [retryDelay] while [attempt < maxRetries]. At the last attempt the
    call rejects with the message "Error del servidor: <status> <statusText>",
    except that a last attempt which is attempt 1 and whose message contains
    "JSON" or "HTML" sends the logout request and stays pending. *)
Theorem failure_status_outcome attempt maxRetries retryDelay w r :
  identity (nfetch w) = HttpResponse r ->
  ok r = false ->
  status r <> 401 -> status r <> 403 ->
  fetchCurrentUser attempt maxRetries retryDelay w
  = if attempt <? maxRetries
    then fetchCurrentUser (attempt + 1) maxRetries retryDelay
           (logs [EFetch currentUser_url; ESetTimeout retryDelay] w)
    else if (attempt =? 1) && session_like (mkError (server_error_message r))
         then (Pending, logs [EFetch currentUser_url; EXhrSend "GET" "/logout"] w)
         else (Rejected (mkError (server_error_message r)), logs [EFetch currentUser_url] w).
Proof.
  intros Hr Hok H401 H403.
  rewrite fetchCurrentUser_unfold, (body_http_failure _ _ _ _ _ Hr Hok H401 H403).
  destruct (attempt <? maxRetries) eqn:Hlt; [done|].
  unfold caught. destruct ((attempt =? 1) && _); [done|]. by rewrite Hlt.
Qed.

(** X5: a body that is a JSON text of a falsy value (null, false, 0, the
    empty string) parses without error, and still makes [fetchCurrentUser]
    send the logout request and stay pending, at any attempt. *)
Theorem falsy_json_forces_reauthentication attempt maxRetries retryDelay w r s v :
  identity (nfetch w) = HttpResponse r ->
  ok r = true ->
  body r = BodyText s ->
  JSON_parse s = Some v ->
  truthy v = false ->
  fetchCurrentUser attempt maxRetries retryDelay w
  = (Pending, logs [EFetch currentUser_url; EXhrSend "GET" "/logout"] w).
Proof.
  intros Hr Hok Hb Hp Hv.
  rewrite fetchCurrentUser_unfold, (body_parsed _ _ _ _ _ _ Hr Hok Hb). cbv zeta.
  rewrite Hp. simpl. destruct (looksLikeHtml s); simpl; [done|]. by rewrite Hv.
Qed.




(** X7: [fetchCurrentUser] resolves only with an object that has a truthy
    [name] of its own; an array, a string, a number or [true] that the body
    parses to is never returned. *)
Theorem resolved_user_is_named_object attempt maxRetries retryDelay w u w1 :
  fetchCurrentUser attempt maxRetries retryDelay w = (Resolved u, w1) ->
  exists props n,
    u = JObject props /\ assoc "name" props = Some n /\ truthy n = true.
Proof.
  intros Hfetch.
  destruct (fetchCurrentUser_settles _ _ _ _ _ _ Hfetch) as [_ Hu].
  destruct (Hu _ eq_refl) as [_ Hname].
  destruct u as [ | | b | m e | s | l | props]; try discriminate Hname.
  simpl in Hname. destruct (assoc "name" props) as [n|] eqn:Hn; [|discriminate Hname].
  by exists props, n.
Qed.

(** ** Further properties of the sequencer *)

Lemma apply_locale_and_mount_applied sLanguage w :
  applied sLanguage w (apply_locale_and_mount sLanguage w).
Proof.
  unfold apply_locale_and_mount, bind, setLanguage, mount, placeAt.
  destruct (setLanguage_throws sLanguage) as [e|] eqn:Hl; simpl.
  - by apply applied_refused.
  - rewrite count_placeAt_setLanguage.
    destruct (placeAt_throws (count is_placeAt (events w))) as [e|] eqn:Hm.
    + unfold log, logs; simpl. rewrite <- app_assoc. by apply applied_unmounted.
    + rewrite <- app_assoc. by apply applied_mounted.
Qed.

(** [main], by the way the promise of [fetchCurrentUser] settles, with the
    language it sets. *)
Lemma main_cases w :
  match fetchCurrentUser 1 MAX_RETRIES RETRY_DELAY w with
  | (Resolved oUserData, w1) =>
      main w = apply_locale_and_mount (chosen_language oUserData) (user_known oUserData w1)
  | (Rejected _, w1) => main w = apply_locale_and_mount getBrowserLanguage w1
  | (Pending, w1) => main w = (Pending, w1)
  end.
Proof.
  rewrite main_unfold.
  destruct (fetchCurrentUser 1 MAX_RETRIES RETRY_DELAY w) as [[u|e|] w1] eqn:Hfetch;
    try done.
  destruct (fetchCurrentUser_settles _ _ _ _ _ _ Hfetch) as [_ Hu].
  destruct (Hu _ eq_refl) as [Hv Hname].
  unfold bind. by rewrite (resolve_locale_eq _ _ Hv Hname).
Qed.

Lemma main_catch_eq e : main_catch e = apply_locale_and_mount getBrowserLanguage.
Proof. reflexivity. Qed.

Lemma applied_content sLanguage w r :
  applied sLanguage w r ->
  content (snd r)
  = match fst r with
    | Resolved _ => content w ++ ["com.inetum.missolicitudes"]
    | _ => content w
    end.
Proof. by inversion 1. Qed.

Lemma main_content w :
  content (snd (main w))
  = match fst (main w) with
    | Resolved _ => content w ++ ["com.inetum.missolicitudes"]
    | _ => content w
    end.
Proof.
  pose proof (main_cases w) as Hmain.
  destruct (fetchCurrentUser 1 MAX_RETRIES RETRY_DELAY w) as [[u|e|] w1] eqn:Hfetch;
    destruct (fetchCurrentUser_settles _ _ _ _ _ _ Hfetch) as [(pre & -> & _) _];
    rewrite Hmain; try done;
    rewrite (applied_content _ _ _ (apply_locale_and_mount_applied _ _));
    unfold user_known; simpl; by rewrite ?stored_content.
Qed.

(** X8: the start-up resolves exactly when it has mounted the root
    component, and it mounts it once: the page holds one more component when
    the start-up resolves, and the same components when it rejects or stays
    pending, also when the handler runs after [main]. *)
Theorem startup_mounts_once w :
  content (snd (startup w))
  = match fst (startup w) with
    | Resolved _ => content w ++ ["com.inetum.missolicitudes"]
    | _ => content w
    end.
Proof.
  pose proof (main_content w) as Hmain. unfold startup, try_catch.
  destruct (main w) as [[[]|e|] w1]; simpl in Hmain; try done.
  rewrite main_catch_eq.
  by rewrite (applied_content _ _ _ (apply_locale_and_mount_applied _ _)), Hmain.
Qed.

(** X9: when [setLanguage] and the mount return whatever they are called
    with, the handler never runs and the start-up never rejects, whatever the
    identity endpoint and the directory answer: it resolves, or it stays
    pending, and it stays pending exactly when [fetchCurrentUser] does. *)
Theorem startup_contains_failures w :
  (forall sLanguage, setLanguage_throws sLanguage = None) ->
  (forall n, placeAt_throws n = None) ->
  startup w = main w
  /\ (fst (main w) = Resolved tt \/ fst (main w) = Pending)
  /\ (fst (main w) = Pending
      <-> fst (fetchCurrentUser 1 MAX_RETRIES RETRY_DELAY w) = Pending).
Proof.
  intros Hl Hm.
  assert (forall l w0, fst (apply_locale_and_mount l w0) = Resolved tt) as Happly.
  { intros l w0. pose proof (apply_locale_and_mount_applied l w0) as Ha.
    inversion Ha as [e He | e _ He | ]; try done.
    - by rewrite Hl in He.
    - by rewrite Hm in He. }
  assert ((fst (main w) = Resolved tt \/ fst (main w) = Pending)
          /\ (fst (main w) = Pending
              <-> fst (fetchCurrentUser 1 MAX_RETRIES RETRY_DELAY w) = Pending))
    as [Hsettled Hpending].
  { pose proof (main_cases w) as Hmain.
    destruct (fetchCurrentUser 1 MAX_RETRIES RETRY_DELAY w) as [[u|e|] w1];
      rewrite Hmain, ?Happly; simpl; split; try tauto; try (by left); by split. }
  split; [|done]. unfold startup, try_catch.
  destruct (main w) as [[[]|e|] w1]; try done. by destruct Hsettled.
Qed.

Lemma getBrowserLanguage_cases :
  (getBrowserLanguage = Locale "es_ES" \/ getBrowserLanguage = Locale "ca_ES"
   \/ getBrowserLanguage = Locale "en_US")
  \/ (exists name, getBrowserLanguage = Inherited name).
Proof using navigator.
  unfold getBrowserLanguage.
  destruct (mMap_get_cases (toLowerCase (js_or_lit browser_tag "en")))
    as [(v & -> & _ & [-> | [-> | ->]]) | [[-> _] | [-> _]]]; simpl.
  - left. by left.
  - left. right. by left.
  - left. right. by right.
  - right. by eexists.
  - left. right. by right.
Qed.

Lemma browser_language_passed : passed_language getBrowserLanguage.
Proof using navigator.
  destruct getBrowserLanguage_cases as [[H | [H | H]] | [name H]]; rewrite H; simpl;
    done.
Qed.

Lemma chosen_language_passed oUserData : passed_language (chosen_language oUserData).
Proof.
  unfold chosen_language.
  destruct (directory _) as [oData | | |]; try apply browser_language_passed.
  unfold record_locale. destruct (results oData) as [[|first rest]|];
    try apply browser_language_passed.
  destruct (defaultLocale first) as [l|]; simpl; [|apply browser_language_passed].
  destruct l; simpl; [apply browser_language_passed | done].
Qed.

Lemma passed_language_not_empty v : passed_language v -> v <> Locale "".
Proof. intros Hv ->. by apply Hv. Qed.

(** The calls [setLanguage(sLanguage)] and the mount add to the log. *)
Lemma applied_events sLanguage w r :
  applied sLanguage w r ->
  exists tail,
    events (snd r) = events w ++ ESetLanguage sLanguage :: tail
    /\ Forall (fun e => is_placeAt e = true) tail.
Proof.
  inversion 1; simpl.
  - exists []. by split.
  - eexists [_]. split; [done|]. by repeat constructor.
  - eexists [_]. split; [done|]. by repeat constructor.
Qed.

Lemma user_phase_no_language l sLanguage :
  Forall user_phase l -> ESetLanguage sLanguage ∈ l -> False.
Proof.
  intros Hall Hin. rewrite Forall_forall in Hall.
  by destruct (Hall _ Hin) as [_ Hlm].
Qed.

Lemma placeAt_no_language l sLanguage :
  Forall (fun e => is_placeAt e = true) l -> ESetLanguage sLanguage ∈ l -> False.
Proof. intros Hall Hin. rewrite Forall_forall in Hall. by pose proof (Hall _ Hin). Qed.

Lemma directory_calls_no_language sUserId sLanguage :
  ESetLanguage sLanguage ∈ directory_calls sUserId -> False.
Proof.
  unfold directory_calls. destruct (directory sUserId);
    rewrite ?list_elem_of_singleton, ?elem_of_nil; done.
Qed.

(** A language set by [setLanguage(l0)] and the mount in [w0] is [l0]. *)
Lemma applied_languages l0 w0 r sLanguage :
  applied l0 w0 r ->
  ESetLanguage sLanguage ∈ events (snd r) ->
  ESetLanguage sLanguage ∈ events w0 \/ sLanguage = l0.
Proof.
  intros Ha Hin. destruct (applied_events _ _ _ Ha) as (tail & He & Htail).
  rewrite He, elem_of_app, elem_of_cons in Hin.
  destruct Hin as [Hin | [[= ->] | Hin]]; [by left | by right |].
  by destruct (placeAt_no_language _ _ Htail Hin).
Qed.

Lemma main_languages w sLanguage :
  ESetLanguage sLanguage ∈ events (snd (main w)) ->
  ESetLanguage sLanguage ∈ events w \/ passed_language sLanguage.
Proof.
  pose proof (main_cases w) as Hmain.
  destruct (fetchCurrentUser 1 MAX_RETRIES RETRY_DELAY w) as [[u|e|] w1] eqn:Hfetch;
    destruct (fetchCurrentUser_settles _ _ _ _ _ _ Hfetch) as [(pre & -> & Hpre) _];
    rewrite Hmain; intros Hin.
  - apply (applied_languages _ _ _ _ (apply_locale_and_mount_applied _ _)) in Hin.
    destruct Hin as [Hin | ->]; [|right; apply chosen_language_passed].
    unfold user_known in Hin. simpl in Hin. rewrite stored_events in Hin. simpl in Hin.
    rewrite !elem_of_app, list_elem_of_singleton in Hin.
    destruct Hin as [[[Hin | Hin] | Hin] | Hin]; try done; [by left | |].
    + by destruct (user_phase_no_language _ _ Hpre Hin).
    + by destruct (directory_calls_no_language _ _ Hin).
  - apply (applied_languages _ _ _ _ (apply_locale_and_mount_applied _ _)) in Hin.
    destruct Hin as [Hin | ->]; [|right; apply browser_language_passed].
    simpl in Hin. rewrite elem_of_app in Hin.
    destruct Hin as [Hin | Hin]; [by left|].
    by destruct (user_phase_no_language _ _ Hpre Hin).
  - simpl in Hin. rewrite elem_of_app in Hin.
    destruct Hin as [Hin | Hin]; [by left|].
    by destruct (user_phase_no_language _ _ Hpre Hin).
Qed.

(** X10: the start-up never calls [setLanguage] with an empty string: every
    value it passes, in [main] or in the handler, is a non-empty string (the
    locale of the directory or one of the table) or the inherited member
    that [getBrowserLanguage] returned for the browser tag. *)
Theorem language_set_is_nonempty w sLanguage :
  ESetLanguage sLanguage ∈ events (snd (startup w)) ->
  ESetLanguage sLanguage ∈ events w
  \/ (sLanguage <> Locale ""
      /\ match sLanguage with
         | Locale sLocale => sLocale <> ""
         | Inherited name => getBrowserLanguage = Inherited name
         end).
Proof.
  assert (ESetLanguage sLanguage ∈ events (snd (startup w)) ->
          ESetLanguage sLanguage ∈ events w \/ passed_language sLanguage) as Hpassed.
  { pose proof (main_languages w sLanguage) as Hmain. unfold startup, try_catch.
    destruct (main w) as [[[]|e|] w1]; simpl in Hmain; try done.
    rewrite main_catch_eq. intros Hin.
    apply (applied_languages _ _ _ _ (apply_locale_and_mount_applied _ _)) in Hin.
    destruct Hin as [Hin | ->]; [by apply Hmain | right; apply browser_language_passed]. }
  intros Hin. destruct (Hpassed Hin) as [Hold | Hp]; [by left | right].
  split; [by apply passed_language_not_empty | exact Hp].
Qed.

Lemma user_phase_no_read l : Forall user_phase l -> count is_read l = O.
Proof.
  induction 1 as [|e l [_ He] _ IH]; simpl; [done|].
  destruct e; simpl in *; try done.
Qed.

Lemma applied_reads sLanguage w r :
  applied sLanguage w r -> count is_read (events (snd r)) = count is_read (events w).
Proof. inversion 1; simpl; rewrite count_app; simpl; lia. Qed.

(** X11: a start-up reads the directory at most once: once when
    [fetchCurrentUser] resolves and the model and the filter can be built,
    not at all when they cannot, nor when [fetchCurrentUser] rejects or stays
    pending; the handler never reads it. *)
Theorem directory_is_read_for_a_user_only w s w1 :
  fetchCurrentUser 1 MAX_RETRIES RETRY_DELAY w = (s, w1) ->
  count is_read (events (snd (startup w)))
  = (count is_read (events w)
     + match s with
       | Resolved oUserData =>
           match directory (getProperty oUserData "name") with
           | ODataUnavailable _ => 0
           | _ => 1
           end
       | _ => 0
       end)%nat.
Proof.
  intros Hfetch.
  assert (count is_read (events (snd (main w)))
          = (count is_read (events w)
             + match s with
               | Resolved oUserData =>
                   match directory (getProperty oUserData "name") with
                   | ODataUnavailable _ => 0
                   | _ => 1
                   end
               | _ => 0
               end)%nat)
    as Hmain.
  { pose proof (main_cases w) as Hmain. rewrite Hfetch in Hmain.
    destruct (fetchCurrentUser_settles _ _ _ _ _ _ Hfetch) as [(pre & -> & Hpre) _].
    destruct s as [u|e|]; rewrite Hmain;
      rewrite ?(applied_reads _ _ _ (apply_locale_and_mount_applied _ _));
      unfold user_known; simpl; rewrite ?stored_events; simpl;
      rewrite ?count_app, (user_phase_no_read _ Hpre); simpl; try lia.
    unfold directory_calls. destruct (directory _); simpl; lia. }
  unfold startup, try_catch.
  destruct (main w) as [[[]|e|] w2]; simpl in Hmain; try done.
  rewrite main_catch_eq.
  by rewrite (applied_reads _ _ _ (apply_locale_and_mount_applied _ _)).
Qed.

(** X12: [main] rejects only with an error thrown by [setLanguage] or by the
    mount: no answer of the identity endpoint or of the directory makes it
    reject. *)
Theorem main_rejects_with_a_framework_error w e w1 :
  main w = (Rejected e, w1) ->
  (exists sLanguage, setLanguage_throws sLanguage = Some e)
  \/ (exists n, placeAt_throws n = Some e).
Proof.
  intros Hmain. pose proof (main_cases w) as Hcases.
  assert (forall l w0, apply_locale_and_mount l w0 = (Rejected e, w1) ->
            (exists sLanguage, setLanguage_throws sLanguage = Some e)
            \/ (exists n, placeAt_throws n = Some e)) as Happly.
  { intros l w0 Heq. pose proof (apply_locale_and_mount_applied l w0) as Ha.
    rewrite Heq in Ha. inversion Ha; subst; [left | right]; by eexists. }
  destruct (fetchCurrentUser 1 MAX_RETRIES RETRY_DELAY w) as [[u|e'|] w0];
    rewrite Hcases in Hmain; [by eapply Happly | by eapply Happly | done].
Qed.

Lemma applied_resolved sLanguage w r :
  applied sLanguage w r ->
  fst r = Resolved tt ->
  snd r = localized_and_mounted sLanguage w /\ setLanguage_throws sLanguage = None.
Proof. by inversion 1. Qed.

Lemma main_extends w : exists l, events (snd (main w)) = events w ++ l.
Proof.
  pose proof (main_cases w) as Hmain.
  destruct (fetchCurrentUser 1 MAX_RETRIES RETRY_DELAY w) as [[u|e|] w1] eqn:Hfetch;
    destruct (fetchCurrentUser_settles _ _ _ _ _ _ Hfetch) as [(pre & -> & _) _];
    rewrite Hmain.
  - destruct (applied_events _ _ _ (apply_locale_and_mount_applied
                                      (chosen_language u) (user_known u (logs pre w))))
      as (tail & -> & _).
    unfold user_known. simpl. rewrite stored_events. simpl.
    rewrite <- !app_assoc. by eexists.
  - destruct (applied_events _ _ _ (apply_locale_and_mount_applied
                                      getBrowserLanguage (logs pre w)))
      as (tail & -> & _).
    simpl. rewrite <- !app_assoc. by eexists.
  - by eexists.
Qed.

(** X13: when the start-up resolves, its last two calls are [setLanguage]
    and the mount: the root component is mounted right after a language was
    set in the same run, that language is the one configured at the end, the
    call that set it returned, and it is a non-empty string or the inherited
    member [getBrowserLanguage] returned. *)
Theorem resolved_startup_has_a_language w :
  fst (startup w) = Resolved tt ->
  exists sLanguage pre,
    events (snd (startup w))
    = events w ++ pre ++ [ESetLanguage sLanguage;
                          EPlaceAt "com.inetum.missolicitudes" "content"]
    /\ configuredLanguage (snd (startup w)) = Some sLanguage
    /\ setLanguage_throws sLanguage = None
    /\ sLanguage <> Locale ""
    /\ match sLanguage with
       | Locale sLocale => sLocale <> ""
       | Inherited name => getBrowserLanguage = Inherited name
       end.
Proof.
  assert (forall l w0 pre0,
            events w0 = events w ++ pre0 ->
            passed_language l ->
            fst (apply_locale_and_mount l w0) = Resolved tt ->
            exists sLanguage pre,
              events (snd (apply_locale_and_mount l w0))
              = events w ++ pre ++ [ESetLanguage sLanguage;
                                    EPlaceAt "com.inetum.missolicitudes" "content"]
              /\ configuredLanguage (snd (apply_locale_and_mount l w0)) = Some sLanguage
              /\ setLanguage_throws sLanguage = None
              /\ sLanguage <> Locale ""
              /\ passed_language sLanguage) as Happly.
  { intros l w0 pre0 Hw0 Hl Hr.
    destruct (applied_resolved _ _ _ (apply_locale_and_mount_applied l w0) Hr) as [-> Ht].
    exists l, pre0. simpl. rewrite Hw0, <- app_assoc.
    repeat split; try done. by apply passed_language_not_empty. }
  unfold startup, try_catch. pose proof (main_cases w) as Hmain.
  destruct (main_extends w) as [l1 Hl1].
  destruct (main w) as [[[]|e|] w2] eqn:Hm; simpl in *; try done.
  - intros _.
    destruct (fetchCurrentUser 1 MAX_RETRIES RETRY_DELAY w) as [[u|e|] w1] eqn:Hfetch;
      destruct (fetchCurrentUser_settles _ _ _ _ _ _ Hfetch) as [(pre & -> & _) _];
      try done.
    + assert (fst (apply_locale_and_mount (chosen_language u) (user_known u (logs pre w)))
              = Resolved tt) as Hr by (by rewrite <- Hmain).
      replace w2 with (snd (apply_locale_and_mount (chosen_language u)
                              (user_known u (logs pre w))))
        by (by rewrite <- Hmain).
      apply (Happly _ _ (pre ++ [ESetItem userInfo_key (JSON_stringify u)]
                           ++ directory_calls (getProperty u "name")));
        [|apply chosen_language_passed | done].
      unfold user_known. simpl. rewrite stored_events. simpl. by rewrite <- !app_assoc.
    + assert (fst (apply_locale_and_mount getBrowserLanguage (logs pre w)) = Resolved tt)
        as Hr by (by rewrite <- Hmain).
      replace w2 with (snd (apply_locale_and_mount getBrowserLanguage (logs pre w)))
        by (by rewrite <- Hmain).
      by apply (Happly _ _ pre); [|apply browser_language_passed|].
  - rewrite main_catch_eq. intros Hr.
    by apply (Happly _ _ l1); [|apply browser_language_passed|].
Qed.

(** ** Further properties of the browser language *)

Lemma underscore_char_inv c c0 :
  underscore_char c = c0 -> c = c0 \/ (c = "-"%char /\ c0 = "_"%char).
Proof.
  unfold underscore_char. destruct (code c =? 45)%N eqn:Hc; intros <-; [right | by left].
  split; [|done]. apply N.eqb_eq in Hc. unfold code in Hc.
  by rewrite <- (ascii_N_embedding c), Hc.
Qed.

Ltac invert_underscored H :=
  repeat lazymatch type of H with
  | underscored ?s = EmptyString =>
      destruct s; [clear H | discriminate H]
  | underscored ?s = String _ _ =>
      let c := fresh "c" in
      let Hc := fresh "Hc" in
      let Hc' := fresh "Hc" in
      destruct s as [|c s]; [discriminate H|];
      simpl in H; injection H as Hc H;
      apply underscore_char_inv in Hc;
      destruct Hc as [Hc | [Hc Hc']]; [subst c | try discriminate Hc'; subst c]
  end.

(** The table has the same entry, or none, for a key and for the key with
    its hyphens written as underscores. *)
Lemma mMap_underscored sLang : mMap !! underscored sLang = mMap !! sLang.
Proof.
  destruct (mMap !! underscored sLang) as [v|] eqn:E1.
  - apply mMap_lookup in E1. unfold mMap_entries in E1.
    rewrite !elem_of_cons, elem_of_nil in E1.
    repeat (destruct E1 as [E1 | E1];
            [injection E1 as E1 ->; invert_underscored E1; reflexivity |]).
    destruct E1.
  - destruct (mMap !! sLang) as [v|] eqn:E2; [|done].
    apply mMap_lookup in E2. unfold mMap_entries in E2.
    rewrite !elem_of_cons, elem_of_nil in E2.
    repeat (destruct E2 as [E2 | E2];
            [injection E2 as -> ->; vm_compute in E1; discriminate E1 |]).
    destruct E2.
Qed.

Lemma lower_char_idem c : lower_char (lower_char c) = lower_char c.
Proof. by destruct c as [[] [] [] [] [] [] [] []]. Qed.

Lemma toLowerCase_idem s : toLowerCase (toLowerCase s) = toLowerCase s.
Proof. induction s as [|c s IH]; simpl; [done|]. by rewrite lower_char_idem, IH. Qed.

(** Of the names an object literal inherits, a lower-cased tag can only be
    [constructor] or [__proto__]: the others have a capital letter. *)
Lemma lowered_prototype_name t :
  toLowerCase t ∈ Object_prototype_names ->
  toLowerCase t = "constructor" \/ toLowerCase t = "__proto__".
Proof.
  pose proof (toLowerCase_idem t) as Hi. revert Hi.
  generalize (toLowerCase t). intros s Hi. unfold Object_prototype_names.
  rewrite !elem_of_cons, elem_of_nil. intros H.
  repeat (destruct H as [-> | H];
          [first [by left | by right | vm_compute in Hi; discriminate Hi] |]).
  destruct H.
Qed.

Lemma mMap_get_lowered t :
  mMap_get (toLowerCase t)
  = match mMap !! toLowerCase t with
    | Some sLocale => Some (Locale sLocale)
    | None =>
        if bool_decide (toLowerCase t ∈ ["constructor"; "__proto__"])
        then Some (Inherited (toLowerCase t))
        else None
    end.
Proof.
  unfold mMap_get. destruct (mMap !! toLowerCase t); [done|].
  destruct (bool_decide (toLowerCase t ∈ Object_prototype_names)) eqn:Hb.
  - apply bool_decide_eq_true in Hb. apply lowered_prototype_name in Hb.
    rewrite bool_decide_eq_true_2; [done|].
    rewrite !elem_of_cons. destruct Hb as [Hb | Hb]; [by left | right; by left].
  - apply bool_decide_eq_false in Hb.
    rewrite bool_decide_eq_false_2; [done|].
    rewrite !elem_of_cons, elem_of_nil. intros [He | [He | []]]; apply Hb; rewrite He;
      unfold Object_prototype_names; rewrite !elem_of_cons; auto 20.
Qed.

Lemma underscored_constructor s : underscored s = "constructor" -> s = "constructor".
Proof. intros H. invert_underscored H. reflexivity. Qed.

Lemma mMap_get_separator t1 t2 :
  underscored (toLowerCase t1) = underscored (toLowerCase t2) ->
  underscored (toLowerCase t1) <> "__proto__" ->
  mMap_get (toLowerCase t1) = mMap_get (toLowerCase t2).
Proof.
  intros Heq Hn. rewrite !mMap_get_lowered.
  rewrite <- (mMap_underscored (toLowerCase t1)), <- (mMap_underscored (toLowerCase t2)), Heq.
  destruct (mMap !! underscored (toLowerCase t2)); [done|].
  assert (forall s s', underscored s = underscored s' -> underscored s <> "__proto__" ->
            s ∈ ["constructor"; "__proto__"] -> s' = s) as Hsame.
  { intros s s' He Hp. rewrite !elem_of_cons, elem_of_nil. intros [-> | [-> | []]].
    - by apply underscored_constructor.
    - by destruct Hp. }
  destruct (bool_decide (toLowerCase t1 ∈ ["constructor"; "__proto__"])) eqn:H1.
  - apply bool_decide_eq_true in H1. rewrite (Hsame _ _ Heq Hn H1).
    by rewrite (bool_decide_eq_true_2 _ H1).
  - destruct (bool_decide (toLowerCase t2 ∈ ["constructor"; "__proto__"])) eqn:H2; [|done].
    apply bool_decide_eq_true in H2. apply bool_decide_eq_false in H1.
    rewrite Heq in Hn. by rewrite (Hsame _ _ (eq_sym Heq) Hn H2) in H1.
Qed.

(** The tag [getBrowserLanguage] lower-cases. *)
Lemma browser_tag_effective :
  js_or_lit browser_tag "en" = effective_tag (language navigator) (userLanguage navigator).
Proof using navigator.
  unfold js_or_lit, browser_tag, js_or, truthy_str, effective_tag.
  destruct (language navigator) as [[|c s]|], (userLanguage navigator) as [[|c' s']|]; done.
Qed.

End Bootstrap.

(** C6: [getBrowserLanguage] lower-cases the first non-empty of
    [navigator.language], [navigator.userLanguage] and "en"; the nine keys of
    the table give their locale (es_ES, ca_ES, en_US), and every other tag
    gives en_US except the two lower-case names that the object literal
    inherits: for [constructor] and [__proto__] the lookup [mMap[sLang]] finds
    the inherited member, which is truthy, and that member is returned, not
    en_US and not a string. The tags "constructor" and "__PROTO__" show it. *)
Theorem browser_language_inherited_member :
  (forall sLanguage sUserLanguage,
     getBrowserLanguage (mkNavigator sLanguage sUserLanguage)
     = if bool_decide (JSString.toLowerCase (effective_tag sLanguage sUserLanguage)
                         ∈ ["es"; "es-es"; "es_es"])
       then Locale "es_ES"
       else if bool_decide (JSString.toLowerCase (effective_tag sLanguage sUserLanguage)
                              ∈ ["ca"; "ca-es"; "ca_es"])
       then Locale "ca_ES"
       else if bool_decide (JSString.toLowerCase (effective_tag sLanguage sUserLanguage)
                              ∈ ["en"; "en-us"; "en_us"])
       then Locale "en_US"
       else if bool_decide (JSString.toLowerCase (effective_tag sLanguage sUserLanguage)
                              ∈ ["constructor"; "__proto__"])
       then Inherited (JSString.toLowerCase (effective_tag sLanguage sUserLanguage))
       else Locale "en_US")
  /\ getBrowserLanguage (mkNavigator (Some "constructor") None) = Inherited "constructor"
  /\ getBrowserLanguage (mkNavigator None (Some "__PROTO__")) = Inherited "__proto__"
  /\ getBrowserLanguage (mkNavigator (Some "constructor") None) <> Locale "en_US"
  /\ getBrowserLanguage (mkNavigator None (Some "__PROTO__")) <> Locale "en_US".
Proof.
  split; [|by vm_compute].
  intros sLanguage sUserLanguage. unfold getBrowserLanguage.
  rewrite browser_tag_effective. simpl language. simpl userLanguage.
  rewrite mMap_get_lowered.
  generalize (JSString.toLowerCase (effective_tag sLanguage sUserLanguage)). intros sLang.
  destruct (mMap !! sLang) as [v|] eqn:Hv.
  - apply mMap_lookup in Hv. unfold mMap_entries in Hv.
    rewrite !elem_of_cons, elem_of_nil in Hv.
    repeat (destruct Hv as [[= -> ->] | Hv]; [by vm_compute |]).
    destruct Hv.
  - rewrite (bool_decide_eq_false_2 (sLang ∈ ["es"; "es-es"; "es_es"])),
            (bool_decide_eq_false_2 (sLang ∈ ["ca"; "ca-es"; "ca_es"])),
            (bool_decide_eq_false_2 (sLang ∈ ["en"; "en-us"; "en_us"]));
      [by case_bool_decide | ..];
      (rewrite !elem_of_cons, elem_of_nil; intros [-> | [-> | [-> | []]]];
       vm_compute in Hv; discriminate Hv).
Qed.

(** X1: two tags that differ only in letter case and in writing the separator
    as a hyphen or as an underscore give the same language, whether or not
    they are in the table, unless they are written like [__proto__] (for
    which the tag with underscores finds the inherited member and the tag
    with hyphens finds nothing). *)
Theorem tags_equal_up_to_case_and_separator t1 t2 sUserLanguage :
  JSString.underscored (JSString.toLowerCase t1)
  = JSString.underscored (JSString.toLowerCase t2) ->
  JSString.underscored (JSString.toLowerCase t1) <> "__proto__" ->
  getBrowserLanguage (mkNavigator (Some t1) sUserLanguage)
  = getBrowserLanguage (mkNavigator (Some t2) sUserLanguage).
Proof.
  intros Heq Hn. unfold getBrowserLanguage, browser_tag, js_or, truthy_str. simpl.
  destruct t1 as [|a1 t1], t2 as [|a2 t2]; try discriminate Heq; [reflexivity|].
  cbn [JSString.isEmpty negb js_or_lit].
  by rewrite (mMap_get_separator _ _ Heq Hn).
Qed.

(** X2: a locale [getBrowserLanguage] returns is itself a tag of the table,
    mapped to itself: reporting it as [navigator.language] gives it again. *)
Theorem browser_language_is_a_fixed_point navigator sUserLanguage sLocale :
  getBrowserLanguage navigator = Locale sLocale ->
  getBrowserLanguage (mkNavigator (Some sLocale) sUserLanguage) = Locale sLocale.
Proof.
  intros H.
  destruct (getBrowserLanguage_cases navigator) as [[H' | [H' | H']] | [name H']];
    rewrite H' in H; try discriminate H; injection H as <-; reflexivity.
Qed.

(** ** The script on concrete surroundings *)

Import Scenario.

(** A whole start-up: four failure statuses, then the user; the directory
    gives ca_ES, which is set, and the root component is mounted. *)
Example startup_with_user :
  fst (startup JSON.parse JSON.stringify toUrl (browser "es-ES") four_errors_then_alice
         (locale_of (Some "ca_ES")) accepts_all mounts stores page)
  = Resolved tt
  /\ events (snd (startup JSON.parse JSON.stringify toUrl (browser "es-ES")
                    four_errors_then_alice (locale_of (Some "ca_ES")) accepts_all mounts stores
                    page))
     = [EFetch url; ESetTimeout 1000; EFetch url; ESetTimeout 1000;
        EFetch url; ESetTimeout 1000; EFetch url; ESetTimeout 1000; EFetch url;
        ESetItem "com:missolicitudes:userInfo" (JSON.text "{'name':'alice'}");
        EODataRead "/User" (JString "alice");
        ESetLanguage (Locale "ca_ES");
        EPlaceAt "com.inetum.missolicitudes" "content"]
  /\ content (snd (startup JSON.parse JSON.stringify toUrl (browser "es-ES")
                     four_errors_then_alice (locale_of (Some "ca_ES")) accepts_all mounts stores
                     page))
     = ["com.inetum.missolicitudes"].
Proof. repeat split; vm_compute; reflexivity. Qed.

(** Witness of C3: the endpoint answers 401 at attempt 3. *)
Lemma auth_failure_witness :
  fetchCurrentUser JSON.parse toUrl (always unauthorized) 3 5 1000 page
  = (Pending, logs [EFetch url; EXhrSend "GET" "/logout"] page).
Proof.
  apply (auth_failure_logs_out_and_suspends JSON.parse toUrl (always unauthorized)
           3 5 1000 page (mkResponse 401 "Unauthorized" (Some "application/json")
                            (BodyText ""))).
  - reflexivity.
  - left. reflexivity.
Defined.

(** Witness of C9: an empty body and a truncated one are not HTML, and
    [JSON.parse] throws on them. *)
Lemma unparsable_body_witness :
  (looksLikeHtml "" = false /\ JSON.parse "" = None
   /\ fetchCurrentUser JSON.parse toUrl (always empty_answer) 1 5 1000 page
      = (Pending, logs [EFetch url; EXhrSend "GET" "/logout"] page))
  /\ (looksLikeHtml (JSON.text "{'name':") = false
      /\ JSON.parse (JSON.text "{'name':") = None
      /\ fetchCurrentUser JSON.parse toUrl (always truncated_answer) 2 5 1000 page
         = (Pending, logs [EFetch url; EXhrSend "GET" "/logout"] page)).
Proof.
  split; (split; [reflexivity | split; [reflexivity |]]).
  - apply (unparsable_body_forces_reauthentication JSON.parse toUrl (always empty_answer)
             1 5 1000 page _ "" eq_refl eq_refl eq_refl).
    right. reflexivity.
  - apply (unparsable_body_forces_reauthentication JSON.parse toUrl
             (always truncated_answer) 2 5 1000 page _ _ eq_refl eq_refl eq_refl).
    right. reflexivity.
Defined.

(** Counterexample to C1: a user without a name at attempt 1 is neither
    surfaced as an error nor followed by the logout request; after one delay
    the request is made again, and the call resolves with the user of the
    second answer. The same happens at attempt 2. *)
Lemma nameless_user_counterexample :
  (fetchCurrentUser JSON.parse toUrl nameless_then_alice 1 5 1000 page
   = (Resolved alice, logs [EFetch url; ESetTimeout 1000; EFetch url] page)
   /\ fst (fetchCurrentUser JSON.parse toUrl nameless_then_alice 1 5 1000 page) <> Pending
   /\ count is_logout
        (events (snd (fetchCurrentUser JSON.parse toUrl nameless_then_alice 1 5 1000 page))) = O)
  /\ (fetchCurrentUser JSON.parse toUrl nameless_then_alice 2 5 1000 page
      = (Resolved alice, logs [EFetch url; ESetTimeout 1000; EFetch url] page)
      /\ (forall e, fst (fetchCurrentUser JSON.parse toUrl nameless_then_alice 2 5 1000 page)
                    <> Rejected e)
      /\ nfetch (snd (fetchCurrentUser JSON.parse toUrl nameless_then_alice 2 5 1000 page)) = 2%nat).
Proof.
  assert (fetchCurrentUser JSON.parse toUrl nameless_then_alice 1 5 1000 page
          = (Resolved alice, logs [EFetch url; ESetTimeout 1000; EFetch url] page)) as H1
    by (vm_compute; reflexivity).
  assert (fetchCurrentUser JSON.parse toUrl nameless_then_alice 2 5 1000 page
          = (Resolved alice, logs [EFetch url; ESetTimeout 1000; EFetch url] page)) as H2
    by (vm_compute; reflexivity).
  rewrite H1, H2. repeat split; try done.
Qed.

(** Witness of C1 as amended, at attempt 1 of 5 and at attempt 5 of 5. *)
Lemma nameless_user_witness :
  fetchCurrentUser JSON.parse toUrl (always user_without_name) 1 5 1000 page
  = fetchCurrentUser JSON.parse toUrl (always user_without_name) 2 5 1000
      (logs [EFetch url; ESetTimeout 1000] page)
  /\ fetchCurrentUser JSON.parse toUrl (always user_without_name) 5 5 1000 page
     = (Rejected (mkError invalid_user_message), logs [EFetch url] page).
Proof.
  split.
  - apply (nameless_user_is_retried JSON.parse toUrl (always user_without_name)
             1 5 1000 page _ _ (JObject [("email", JString "alice@example.org")])
             eq_refl eq_refl eq_refl eq_refl eq_refl eq_refl eq_refl).
  - apply (nameless_user_is_retried JSON.parse toUrl (always user_without_name)
             5 5 1000 page _ _ (JObject [("email", JString "alice@example.org")])
             eq_refl eq_refl eq_refl eq_refl eq_refl eq_refl eq_refl).
Defined.


(** Witness of C2. *)
Lemma four_failures_then_user_witness :
  fetchCurrentUser JSON.parse toUrl four_errors_then_alice 1 5 1000 page
  = (Resolved alice,
     logs [EFetch url; ESetTimeout 1000; EFetch url; ESetTimeout 1000;
           EFetch url; ESetTimeout 1000; EFetch url; ESetTimeout 1000;
           EFetch url] page).
Proof.
  apply (four_failures_then_user JSON.parse toUrl four_errors_then_alice page alice).
  - intros i Hi.
    exists (mkResponse 500 "Internal Server Error" (Some "application/json") (BodyText "oops")).
    destruct i as [|[|[|[|i]]]]; try lia; repeat split; done.
  - exists (mkResponse 200 "OK" (Some "application/json")
              (BodyText (JSON.text "{'name':'alice'}"))), (JSON.text "{'name':'alice'}").
    repeat split; reflexivity.
Defined.

(** Witness of C4: a failure status, a lost connection, a user without a name
    and two more failure statuses; the browser reports es-ES. *)
Lemma five_failures_witness :
  fetchCurrentUser JSON.parse toUrl five_failures 1 5 1000 page
  = (Rejected (mkError "Error del servidor: 500 Internal Server Error"),
     logs [EFetch url; ESetTimeout 1000; EFetch url; ESetTimeout 1000;
           EFetch url; ESetTimeout 1000; EFetch url; ESetTimeout 1000;
           EFetch url] page)
  /\ main JSON.parse JSON.stringify toUrl (browser "es-ES") five_failures
       (locale_of (Some "ca_ES")) accepts_all mounts stores page
     = (Resolved tt,
        mkWorld [EFetch url; ESetTimeout 1000; EFetch url; ESetTimeout 1000;
                 EFetch url; ESetTimeout 1000; EFetch url; ESetTimeout 1000;
                 EFetch url; ESetLanguage (Locale "es_ES");
                 EPlaceAt "com.inetum.missolicitudes" "content"]
                ∅ (Some (Locale "es_ES")) ["com.inetum.missolicitudes"]).
Proof.
  destruct (five_failures_then_browser_locale JSON.parse JSON.stringify toUrl
              (browser "es-ES") five_failures (locale_of (Some "ca_ES")) accepts_all mounts stores
              page (mkError "Error del servidor: 500 Internal Server Error"))
    as (Hfetch & _ & Hmain).
  - intros i Hi. destruct i as [|[|[|[|i]]]]; try lia.
    + eexists. by apply failed_status.
    + eexists. by apply failed_request.
    + eexists.
      by apply (failed_user JSON.parse 3 _ (JSON.text "{'email':'alice@example.org'}")
                  (JObject [("email", JString "alice@example.org")])).
    + eexists. by apply failed_status.
  - by apply (failed_status JSON.parse 5
                (mkResponse 500 "Internal Server Error" (Some "application/json")
                   (BodyText "oops"))).
  - split; [exact Hfetch|].
    destruct (Hmain eq_refl eq_refl) as [-> _]. reflexivity.
Defined.

(** Counterexample to C5. First run: the user is resolved, the mount throws
    in [main] and again in the handler, so [main] rejects, the start-up
    rejects and nothing is mounted. Second run: the endpoint answers 401, the
    start-up stays pending for ever and nothing is mounted. *)
Lemma startup_not_always_mounted :
  (fst (main JSON.parse JSON.stringify toUrl (browser "es-ES") (always user_alice)
          (locale_of (Some "ca_ES")) accepts_all mount_fails stores page)
   = Rejected (mkError "failed to load component")
   /\ fst (startup JSON.parse JSON.stringify toUrl (browser "es-ES") (always user_alice)
             (locale_of (Some "ca_ES")) accepts_all mount_fails stores page)
      = Rejected (mkError "failed to load component")
   /\ ~ mounted (snd (startup JSON.parse JSON.stringify toUrl (browser "es-ES")
                        (always user_alice) (locale_of (Some "ca_ES"))
                        accepts_all mount_fails stores page)))
  /\ (fst (startup JSON.parse JSON.stringify toUrl (browser "es-ES") (always unauthorized)
             (locale_of (Some "ca_ES")) accepts_all mounts stores page)
      = Pending
      /\ ~ mounted (snd (startup JSON.parse JSON.stringify toUrl (browser "es-ES")
                           (always unauthorized) (locale_of (Some "ca_ES"))
                           accepts_all mounts stores page))).
Proof.
  repeat split; try (vm_compute; reflexivity);
    intros Hmounted; apply Hmounted; vm_compute; reflexivity.
Qed.

(** Witness of C5 as amended: the directory gives a locale that [setLanguage]
    refuses, so [main] rejects; the handler sets the browser language and
    mounts stores. *)
Lemma rejected_main_witness :
  (fst (main JSON.parse JSON.stringify toUrl (browser "ca-ES") (always user_alice)
          (locale_of (Some "xx")) (rejects "xx") mounts stores page)
   = Rejected (mkError "sLanguage must be a valid language tag")
   /\ fst (startup JSON.parse JSON.stringify toUrl (browser "ca-ES") (always user_alice)
             (locale_of (Some "xx")) (rejects "xx") mounts stores page)
      = Resolved tt
   /\ configuredLanguage
        (snd (startup JSON.parse JSON.stringify toUrl (browser "ca-ES")
                (always user_alice) (locale_of (Some "xx")) (rejects "xx") mounts stores page))
      = Some (Locale "ca_ES")
   /\ mounted (snd (startup JSON.parse JSON.stringify toUrl (browser "ca-ES")
                      (always user_alice) (locale_of (Some "xx")) (rejects "xx") mounts stores
                      page)))
  /\ startup JSON.parse JSON.stringify toUrl (browser "ca-ES") (always unauthorized)
       (locale_of (Some "xx")) (rejects "xx") mounts stores page
     = (Pending, logs [EFetch url; EXhrSend "GET" "/logout"] page).
Proof.
  split.
  - destruct (rejected_main_is_caught JSON.parse JSON.stringify toUrl (browser "ca-ES")
                (always user_alice) (locale_of (Some "xx")) (rejects "xx") mounts stores page)
      as [Hrejected _].
    destruct (Hrejected (mkError "sLanguage must be a valid language tag")
                (snd (main JSON.parse JSON.stringify toUrl (browser "ca-ES")
                        (always user_alice) (locale_of (Some "xx")) (rejects "xx") mounts stores
                        page)))
      as [_ Hcaught]; [vm_compute; reflexivity|].
    destruct (Hcaught eq_refl eq_refl) as (Hs & Hl & Hm).
    split; [vm_compute; reflexivity|]. split; [by rewrite Hs|].
    split; [exact Hl | exact Hm].
  - destruct (rejected_main_is_caught JSON.parse JSON.stringify toUrl (browser "ca-ES")
                (always unauthorized) (locale_of (Some "xx")) (rejects "xx") mounts stores page)
      as [_ Hpending].
    destruct (Hpending (logs [EFetch url; EXhrSend "GET" "/logout"] page) eq_refl)
      as [Hs _].
    exact Hs.
Defined.

(** Witness of C7. *)
Lemma directory_locale_witness :
  fetchUserLanguageFromSFSF (locale_of (Some "ca_ES")) (JString "alice") page
  = (Resolved (Some "ca_ES"), log (EODataRead "/User" (JString "alice")) page)
  /\ fetchUserLanguageFromSFSF no_record (JString "alice") page
     = (Resolved None, log (EODataRead "/User" (JString "alice")) page)
  /\ fetchUserLanguageFromSFSF directory_down (JString "alice") page
     = (Resolved None, log (EODataRead "/User" (JString "alice")) page)
  /\ fetchUserLanguageFromSFSF directory_unavailable (JString "alice") page
     = (Resolved None, page)
  /\ configuredLanguage
       (snd (main JSON.parse JSON.stringify toUrl (browser "es-ES") (always user_alice)
               (locale_of (Some "ca_ES")) accepts_all mounts stores page))
     = Some (Locale "ca_ES")
  /\ configuredLanguage
       (snd (main JSON.parse JSON.stringify toUrl (browser "es-ES") (always user_alice)
               no_record accepts_all mounts stores page))
     = Some (Locale "es_ES").
Proof.
  split; [|split; [|split; [|split; [|split]]]].
  - destruct (directory_locale_or_browser_fallback JSON.parse JSON.stringify toUrl
                (browser "es-ES") (always user_alice) (locale_of (Some "ca_ES"))
                accepts_all mounts stores (JString "alice") page) as (H & _).
    apply H. exists (mkUser "alice" (Some "ca_ES")), []. by repeat split.
  - destruct (directory_locale_or_browser_fallback JSON.parse JSON.stringify toUrl
                (browser "es-ES") (always user_alice) no_record
                accepts_all mounts stores (JString "alice") page) as (_ & H & _).
    apply H. right. right. right. left. reflexivity.
  - destruct (directory_locale_or_browser_fallback JSON.parse JSON.stringify toUrl
                (browser "es-ES") (always user_alice) directory_down
                accepts_all mounts stores (JString "alice") page) as (_ & H & _).
    apply H. left. by eexists.
  - destruct (directory_locale_or_browser_fallback JSON.parse JSON.stringify toUrl
                (browser "es-ES") (always user_alice) directory_unavailable
                accepts_all mounts stores (JString "alice") page) as (_ & _ & H & _).
    by apply (H (mkError "service metadata could not be loaded")).
  - destruct (directory_locale_or_browser_fallback JSON.parse JSON.stringify toUrl
                (browser "es-ES") (always user_alice) (locale_of (Some "ca_ES"))
                accepts_all mounts stores (JString "alice") page) as (_ & _ & _ & _ & H).
    destruct (H alice (logs [EFetch url] page) eq_refl eq_refl) as [Hl _].
    rewrite (Hl "ca_ES"); [reflexivity|].
    exists (mkUser "alice" (Some "ca_ES")), []. by repeat split.
  - destruct (directory_locale_or_browser_fallback JSON.parse JSON.stringify toUrl
                (browser "es-ES") (always user_alice) no_record
                accepts_all mounts stores (JString "alice") page) as (_ & _ & _ & _ & H).
    destruct (H alice (logs [EFetch url] page) eq_refl eq_refl) as (_ & Hn & _).
    rewrite Hn; [reflexivity|]. right. right. right. left. reflexivity.
Defined.

(** Counterexample to C8: [fetchCurrentUser] resolves with the user, the
    session storage is full and [setItem] throws; the [try] of step 1
    swallows the error, nothing is stored under the key, and [main] still
    resolves the locale with that user, sets it and mounts. *)
Lemma user_not_always_stored :
  fetchCurrentUser JSON.parse toUrl (always user_alice) 1 5 1000 page
  = (Resolved alice, logs [EFetch url] page)
  /\ sessionStorage
       (snd (main JSON.parse JSON.stringify toUrl (browser "es-ES") (always user_alice)
               (locale_of (Some "ca_ES")) accepts_all mounts storage_full page))
     !! userInfo_key = None
  /\ main JSON.parse JSON.stringify toUrl (browser "es-ES") (always user_alice)
       (locale_of (Some "ca_ES")) accepts_all mounts storage_full page
     = (Resolved tt,
        mkWorld [EFetch url;
                 ESetItem "com:missolicitudes:userInfo" (JSON.text "{'name':'alice'}");
                 EODataRead "/User" (JString "alice");
                 ESetLanguage (Locale "ca_ES");
                 EPlaceAt "com.inetum.missolicitudes" "content"]
                ∅ (Some (Locale "ca_ES")) ["com.inetum.missolicitudes"]).
Proof. repeat split; vm_compute; reflexivity. Qed.

(** Witness of C8 as amended: with a user the key is written when the
    storage takes it and not when it is full, and with a 401 it is not. *)
Lemma user_is_stored_witness :
  sessionStorage
    (snd (main JSON.parse JSON.stringify toUrl (browser "es-ES") (always user_alice)
            (locale_of (Some "ca_ES")) accepts_all mounts stores page))
  = <[userInfo_key := JSON.stringify alice]> ∅
  /\ sessionStorage
       (snd (main JSON.parse JSON.stringify toUrl (browser "es-ES") (always user_alice)
               (locale_of (Some "ca_ES")) accepts_all mounts storage_full page))
     = ∅
  /\ sessionStorage
       (snd (main JSON.parse JSON.stringify toUrl (browser "es-ES") (always unauthorized)
               (locale_of (Some "ca_ES")) accepts_all mounts stores page))
     = ∅.
Proof.
  split; [|split].
  - destruct (user_is_stored_before_locale JSON.parse JSON.stringify toUrl
                (browser "es-ES") (always user_alice) (locale_of (Some "ca_ES"))
                accepts_all mounts stores page) as [H _].
    destruct (H alice (logs [EFetch url] page) eq_refl)
      as (pre & rest & _ & _ & _ & _ & _ & Hs & _).
    exact (Hs eq_refl).
  - destruct (user_is_stored_before_locale JSON.parse JSON.stringify toUrl
                (browser "es-ES") (always user_alice) (locale_of (Some "ca_ES"))
                accepts_all mounts storage_full page) as [H _].
    destruct (H alice (logs [EFetch url] page) eq_refl)
      as (pre & rest & _ & _ & _ & _ & _ & _ & Hs).
    exact (Hs (mkError "QuotaExceededError") eq_refl).
  - destruct (user_is_stored_before_locale JSON.parse JSON.stringify toUrl
                (browser "es-ES") (always unauthorized) (locale_of (Some "ca_ES"))
                accepts_all mounts stores page) as [_ H].
    destruct (H Pending (logs [EFetch url; EXhrSend "GET" "/logout"] page) eq_refl)
      as (l & _ & _ & Hs); [discriminate|].
    exact Hs.
Defined.



(** Witness of X1. *)
Lemma tags_equal_witness :
  getBrowserLanguage (mkNavigator (Some "ES-es") None)
  = getBrowserLanguage (mkNavigator (Some "es_ES") None).
Proof.
  apply (tags_equal_up_to_case_and_separator "ES-es" "es_ES" None).
  - reflexivity.
  - vm_compute. discriminate.
Defined.

(** Witness of X2: the browser reports es-ES, the locale is es_ES, and a
    browser that reports es_ES gets es_ES. *)
Lemma fixed_point_witness :
  getBrowserLanguage (mkNavigator (Some "es_ES") None) = Locale "es_ES".
Proof.
  apply (browser_language_is_a_fixed_point (browser "es-ES") None "es_ES").
  reflexivity.
Defined.


(** Witness of X3: an error naming JSON at attempt 1 and at attempt 2, and a
    body that cannot be read at the last attempt. *)
Lemma thrown_error_witness :
  fetchCurrentUser JSON.parse toUrl (always error_naming_json) 1 5 1000 page
  = (Pending, logs [EFetch url; EXhrSend "GET" "/logout"] page)
  /\ fetchCurrentUser JSON.parse toUrl (always error_naming_json) 2 5 1000 page
     = fetchCurrentUser JSON.parse toUrl (always error_naming_json) 3 5 1000
         (logs [EFetch url; ESetTimeout 1000] page)
  /\ fetchCurrentUser JSON.parse toUrl (always body_lost) 5 5 1000 page
     = (Rejected (mkError "network error"), logs [EFetch url] page).
Proof.
  split; [|split].
  - apply (thrown_error_outcome JSON.parse toUrl (always error_naming_json) 1 5 1000 page
             (mkError "Unexpected end of JSON input")).
    left. reflexivity.
  - apply (thrown_error_outcome JSON.parse toUrl (always error_naming_json) 2 5 1000 page
             (mkError "Unexpected end of JSON input")).
    left. reflexivity.
  - apply (thrown_error_outcome JSON.parse toUrl (always body_lost) 5 5 1000 page
             (mkError "network error")).
    right. eexists. repeat split; reflexivity.
Defined.

(** Witness of X4: with one attempt only, a status 500 rejects with its
    message, and a status text naming HTML sends the logout request. *)
Lemma failure_status_witness :
  fetchCurrentUser JSON.parse toUrl (always server_error) 1 1 1000 page
  = (Rejected (mkError "Error del servidor: 500 Internal Server Error"),
     logs [EFetch url] page)
  /\ fetchCurrentUser JSON.parse toUrl (always failure_naming_html) 1 1 1000 page
     = (Pending, logs [EFetch url; EXhrSend "GET" "/logout"] page)
  /\ fetchCurrentUser JSON.parse toUrl (always failure_naming_html) 2 2 1000 page
     = (Rejected (mkError "Error del servidor: 500 HTML error page"),
        logs [EFetch url] page).
Proof.
  split; [|split].
  - apply (failure_status_outcome JSON.parse toUrl (always server_error) 1 1 1000 page
             (mkResponse 500 "Internal Server Error" (Some "application/json")
                (BodyText "oops")));
      [reflexivity | reflexivity | discriminate | discriminate].
  - apply (failure_status_outcome JSON.parse toUrl (always failure_naming_html) 1 1 1000
             page (mkResponse 500 "HTML error page" (Some "application/json")
                     (BodyText "oops")));
      [reflexivity | reflexivity | discriminate | discriminate].
  - apply (failure_status_outcome JSON.parse toUrl (always failure_naming_html) 2 2 1000
             page (mkResponse 500 "HTML error page" (Some "application/json")
                     (BodyText "oops")));
      [reflexivity | reflexivity | discriminate | discriminate].
Defined.

(** Witness of X5: the bodies [null] and [0]. *)
Lemma falsy_json_witness :
  fetchCurrentUser JSON.parse toUrl (always null_answer) 1 5 1000 page
  = (Pending, logs [EFetch url; EXhrSend "GET" "/logout"] page)
  /\ fetchCurrentUser JSON.parse toUrl (always zero_answer) 4 5 1000 page
     = (Pending, logs [EFetch url; EXhrSend "GET" "/logout"] page).
Proof.
  split.
  - apply (falsy_json_forces_reauthentication JSON.parse toUrl (always null_answer)
             1 5 1000 page _ "null" JNull eq_refl eq_refl eq_refl eq_refl eq_refl).
  - apply (falsy_json_forces_reauthentication JSON.parse toUrl (always zero_answer)
             4 5 1000 page _ "0" (JNumber 0 0) eq_refl eq_refl eq_refl eq_refl eq_refl).
Defined.

(** Witness of X7. *)
Lemma resolved_user_witness :
  exists props n,
    alice = JObject props /\ assoc "name" props = Some n /\ truthy n = true.
Proof.
  apply (resolved_user_is_named_object JSON.parse toUrl (always user_alice) 1 5 1000
           page alice (logs [EFetch url] page)).
  reflexivity.
Defined.

(** Witness of X9: five failures, with a framework that takes every call. *)
Lemma startup_contains_failures_witness :
  startup JSON.parse JSON.stringify toUrl (browser "es-ES") five_failures
    (locale_of (Some "ca_ES")) accepts_all mounts stores page
  = main JSON.parse JSON.stringify toUrl (browser "es-ES") five_failures
      (locale_of (Some "ca_ES")) accepts_all mounts stores page.
Proof.
  apply (startup_contains_failures JSON.parse JSON.stringify toUrl (browser "es-ES")
           five_failures (locale_of (Some "ca_ES")) accepts_all mounts stores page);
    reflexivity.
Defined.

(** Witness of X10: the language of the directory is set. *)
Lemma language_set_witness :
  ESetLanguage (Locale "ca_ES") ∈ events page
  \/ (Locale "ca_ES" <> Locale "" /\ "ca_ES" <> "").
Proof.
  apply (language_set_is_nonempty JSON.parse JSON.stringify toUrl (browser "es-ES")
           (always user_alice) (locale_of (Some "ca_ES")) accepts_all mounts stores page
           (Locale "ca_ES")).
  change (events (snd (startup JSON.parse JSON.stringify toUrl (browser "es-ES")
                         (always user_alice) (locale_of (Some "ca_ES")) accepts_all mounts
                         stores page)))
    with [EFetch url;
          ESetItem userInfo_key (JSON.stringify alice);
          EODataRead "/User" (JString "alice");
          ESetLanguage (Locale "ca_ES");
          EPlaceAt "com.inetum.missolicitudes" "content"].
  rewrite !elem_of_cons. right. right. right. left. reflexivity.
Defined.

(** Witness of X11: one read with a user, none when the model cannot be
    built, none after a 401. *)
Lemma directory_read_witness :
  count is_read
    (events (snd (startup JSON.parse JSON.stringify toUrl (browser "es-ES")
                    (always user_alice) (locale_of (Some "ca_ES")) accepts_all mounts
                    stores page)))
  = 1%nat
  /\ count is_read
       (events (snd (startup JSON.parse JSON.stringify toUrl (browser "es-ES")
                       (always user_alice) directory_unavailable accepts_all mounts
                       stores page)))
     = 0%nat
  /\ count is_read
       (events (snd (startup JSON.parse JSON.stringify toUrl (browser "es-ES")
                       (always unauthorized) (locale_of (Some "ca_ES")) accepts_all mounts
                       stores page)))
     = 0%nat.
Proof.
  split; [|split].
  - apply (directory_is_read_for_a_user_only JSON.parse JSON.stringify toUrl
             (browser "es-ES") (always user_alice) (locale_of (Some "ca_ES")) accepts_all
             mounts stores page (Resolved alice) (logs [EFetch url] page)).
    reflexivity.
  - apply (directory_is_read_for_a_user_only JSON.parse JSON.stringify toUrl
             (browser "es-ES") (always user_alice) directory_unavailable accepts_all
             mounts stores page (Resolved alice) (logs [EFetch url] page)).
    reflexivity.
  - apply (directory_is_read_for_a_user_only JSON.parse JSON.stringify toUrl
             (browser "es-ES") (always unauthorized) (locale_of (Some "ca_ES")) accepts_all
             mounts stores page Pending (logs [EFetch url; EXhrSend "GET" "/logout"] page)).
    reflexivity.
Defined.

(** Witness of X12: [main] rejects with the error of [setLanguage]. *)
Lemma main_rejects_witness :
  (exists sLanguage,
     rejects "xx" sLanguage = Some (mkError "sLanguage must be a valid language tag"))
  \/ (exists n, mounts n = Some (mkError "sLanguage must be a valid language tag")).
Proof.
  apply (main_rejects_with_a_framework_error JSON.parse JSON.stringify toUrl
           (browser "ca-ES") (always user_alice) (locale_of (Some "xx")) (rejects "xx")
           mounts stores page (mkError "sLanguage must be a valid language tag")
           (snd (main JSON.parse JSON.stringify toUrl (browser "ca-ES") (always user_alice)
                   (locale_of (Some "xx")) (rejects "xx") mounts stores page))).
  vm_compute. reflexivity.
Defined.

(** Witness of X13: the language of the directory is refused, the handler
    sets the browser language and mounts. *)
Lemma resolved_startup_witness :
  exists sLanguage pre,
    events (snd (startup JSON.parse JSON.stringify toUrl (browser "ca-ES")
                   (always user_alice) (locale_of (Some "xx")) (rejects "xx") mounts
                   stores page))
    = events page ++ pre ++ [ESetLanguage sLanguage;
                             EPlaceAt "com.inetum.missolicitudes" "content"]
    /\ configuredLanguage
         (snd (startup JSON.parse JSON.stringify toUrl (browser "ca-ES")
                 (always user_alice) (locale_of (Some "xx")) (rejects "xx") mounts
                 stores page))
       = Some sLanguage
    /\ rejects "xx" sLanguage = None
    /\ sLanguage <> Locale ""
    /\ match sLanguage with
       | Locale sLocale => sLocale <> ""
       | Inherited name => getBrowserLanguage (browser "ca-ES") = Inherited name
       end.
Proof.
  apply (resolved_startup_has_a_language JSON.parse JSON.stringify toUrl (browser "ca-ES")
           (always user_alice) (locale_of (Some "xx")) (rejects "xx") mounts stores page).
  vm_compute. reflexivity.
Defined.
